(** * go-dynect [ConvenientClient]: record facade over the Dyn REST API

  A shallow embedding of
  [vendor/github.com/nesv/go-dynect/dynect/convenient_client.go].

  Go strings are byte sequences: they are modelled by [string], whose
  characters ([ascii]) are exactly the 256 byte values.  Go's [int] is
  taken to be 64 bits wide (amd64); its wrap-around is written out.
  [log.Printf] and [fmt.Println] only write diagnostics and are left out. *)

From Stdlib Require Import ZArith List String Ascii Bool Lia.
Import ListNotations.

#[local] Open Scope string_scope.
#[local] Open Scope Z_scope.

(** ** Machine integers *)

Definition wrap_int (z : Z) : Z := (z + 2 ^ 63) mod 2 ^ 64 - 2 ^ 63.

Definition minInt64 : Z := - 2 ^ 63.
Definition maxInt64 : Z := 2 ^ 63 - 1.
Definition maxUint64 : Z := 2 ^ 64 - 1.

Definition byte_val (c : ascii) : Z := Z.of_N (N_of_ascii c).
Definition byte_of (z : Z) : ascii := ascii_of_N (Z.to_N z).

(** ** Package [strings] *)

Module strings.

Fixpoint HasPrefix (s prefix : string) {struct prefix} : bool :=
  match prefix, s with
  | EmptyString, _ => true
  | String p prefix', String c s' => Ascii.eqb c p && HasPrefix s' prefix'
  | String _ _, EmptyString => false
  end.

(** [s[n:]] *)
Fixpoint slice_from (n : nat) (s : string) : string :=
  match n, s with
  | O, _ => s
  | S n', String _ s' => slice_from n' s'
  | S _, EmptyString => EmptyString
  end.

(** [s[:n]] *)
Fixpoint slice_to (n : nat) (s : string) : string :=
  match n, s with
  | O, _ => EmptyString
  | S n', String c s' => String c (slice_to n' s')
  | S _, EmptyString => EmptyString
  end.

Definition TrimPrefix (s prefix : string) : string :=
  if HasPrefix s prefix then slice_from (String.length prefix) s else s.

Definition HasSuffix (s suffix : string) : bool :=
  (String.length suffix <=? String.length s)%nat
  && String.eqb (slice_from (String.length s - String.length suffix) s) suffix.

Definition TrimSuffix (s suffix : string) : string :=
  if HasSuffix s suffix
  then slice_to (String.length s - String.length suffix) s
  else s.

Fixpoint Contains (s substr : string) : bool :=
  HasPrefix s substr
  || match s with
     | EmptyString => false
     | String _ s' => Contains s' substr
     end.

End strings.

(** ** Package [unicode/utf8] *)

Module utf8.

Definition RuneError : Z := 0xFFFD.

Definition in_range (lo hi b : Z) : bool := (lo <=? b) && (b <=? hi).

(** The second byte of a multi-byte sequence is restricted by the first
    (no overlong forms, no surrogates, nothing above U+10FFFF). *)
Definition accept_lo (b0 : Z) : Z :=
  if b0 =? 0xE0 then 0xA0 else if b0 =? 0xF0 then 0x90 else 0x80.
Definition accept_hi (b0 : Z) : Z :=
  if b0 =? 0xED then 0x9F else if b0 =? 0xF4 then 0x8F else 0xBF.

Definition cont (c : ascii) : Z := Z.land (byte_val c) 0x3F.
Definition is_cont (c : ascii) : bool := in_range 0x80 0xBF (byte_val c).

(** [DecodeRuneInString] on a non-empty string: the rune and the rest of
    the string.  An invalid or truncated sequence gives [RuneError] and
    consumes one byte. *)
Definition DecodeRune (c0 : ascii) (s1 : string) : Z * string :=
  let b0 := byte_val c0 in
  if b0 <? 0x80 then (b0, s1)
  else if in_range 0xC2 0xDF b0 then
    match s1 with
    | String c1 s2 =>
        if is_cont c1
        then (Z.lor (Z.shiftl (Z.land b0 0x1F) 6) (cont c1), s2)
        else (RuneError, s1)
    | _ => (RuneError, s1)
    end
  else if in_range 0xE0 0xEF b0 then
    match s1 with
    | String c1 (String c2 s3) =>
        if in_range (accept_lo b0) (accept_hi b0) (byte_val c1) && is_cont c2
        then (Z.lor (Z.shiftl (Z.land b0 0x0F) 12)
                (Z.lor (Z.shiftl (cont c1) 6) (cont c2)), s3)
        else (RuneError, s1)
    | _ => (RuneError, s1)
    end
  else if in_range 0xF0 0xF4 b0 then
    match s1 with
    | String c1 (String c2 (String c3 s4)) =>
        if in_range (accept_lo b0) (accept_hi b0) (byte_val c1)
           && is_cont c2 && is_cont c3
        then (Z.lor (Z.shiftl (Z.land b0 0x07) 18)
                (Z.lor (Z.shiftl (cont c1) 12)
                   (Z.lor (Z.shiftl (cont c2) 6) (cont c3))), s4)
        else (RuneError, s1)
    | _ => (RuneError, s1)
    end
  else (RuneError, s1).

Definition cont_byte (r : Z) (shift : Z) : ascii :=
  byte_of (Z.lor 0x80 (Z.land (Z.shiftr r shift) 0x3F)).

(** [AppendRune]: the UTF-8 encoding of [r] followed by [tail]. *)
Definition EncodeRune (r : Z) (tail : string) : string :=
  if in_range 0 0x7F r then String (byte_of r) tail
  else if in_range 0x80 0x7FF r then
    String (byte_of (Z.lor 0xC0 (Z.shiftr r 6))) (String (cont_byte r 0) tail)
  else if (in_range 0x800 0xFFFF r && negb (in_range 0xD800 0xDFFF r)) then
    String (byte_of (Z.lor 0xE0 (Z.shiftr r 12)))
      (String (cont_byte r 6) (String (cont_byte r 0) tail))
  else if in_range 0x10000 0x10FFFF r then
    String (byte_of (Z.lor 0xF0 (Z.shiftr r 18)))
      (String (cont_byte r 12)
         (String (cont_byte r 6) (String (cont_byte r 0) tail)))
  else String (byte_of 0xEF) (String (byte_of 0xBF) (String (byte_of 0xBD) tail)).

End utf8.

(** ** Package [strconv] *)

Module strconv.

Inductive NumError : Type := ErrSyntax | ErrRange.

Definition digit_byte (d : Z) : ascii := byte_of (48 + d).

(** The digit loop of [formatBits] for base 10: least significant digit
    first, written in front of what is already there. *)
Fixpoint formatBits (fuel : nat) (u : Z) (a : string) : string :=
  match fuel with
  | O => a
  | S fuel' =>
      if 10 <=? u
      then formatBits fuel' (u / 10) (String (digit_byte (u mod 10)) a)
      else String (digit_byte u) a
  end.

(** [FormatInt(i, 10)].  A number has no more decimal digits than bits. *)
Definition FormatInt (i : Z) : string :=
  let u := Z.abs i in
  let a := formatBits (S (Z.to_nat (Z.log2 u))) u "" in
  if i <? 0 then String "-" a else a.

Definition Itoa (i : Z) : string := FormatInt i.

Definition is_digit (c : ascii) : bool := utf8.in_range 48 57 (byte_val c).

(** The loop of [ParseUint(s, 10, 64)] over the bytes of [s], with [n] the
    value read so far (a [uint64]). *)
Fixpoint ParseUint_loop (s : string) (n : Z) : NumError + Z :=
  match s with
  | EmptyString => inr n
  | String c s' =>
      if is_digit c then
        let d := byte_val c - 48 in
        if maxUint64 / 10 + 1 <=? n then inl ErrRange
        else
          let n10 := n * 10 in
          let n1 := (n10 + d) mod 2 ^ 64 in
          if (n1 <? n10) || (maxUint64 <? n1) then inl ErrRange
          else ParseUint_loop s' n1
      else inl ErrSyntax
  end.

Definition ParseUint (s : string) : NumError + Z :=
  match s with
  | EmptyString => inl ErrSyntax
  | _ => ParseUint_loop s 0
  end.

(** [ParseInt(s, 10, 64)] *)
Definition ParseInt (s : string) : NumError + Z :=
  match s with
  | EmptyString => inl ErrSyntax
  | String c0 s' =>
      let neg := Ascii.eqb c0 "-" in
      let digits := if Ascii.eqb c0 "+" || neg then s' else s in
      match ParseUint digits with
      | inl e => inl e
      | inr un =>
          let cutoff := 2 ^ 63 in
          if negb neg && (cutoff <=? un) then inl ErrRange
          else if neg && (cutoff <? un) then inl ErrRange
          else inr (if neg then - un else un)
      end
  end.

End strconv.

(** ** Package [fmt]: scanning

    [fmt.Sscanf] reads its input rune by rune ([readRune] over the string)
    and stops at the first error, leaving the operands not yet reached as
    they were.  The width limit of the scanner (2^30 runes) is not modelled:
    record values are far shorter.  The texts of the scanner's errors are
    of no consequence here, since [buildRData] drops the error. *)

Module fmt.

(** A Go [error]: [None] is [nil], [Some msg] an error whose [Error()] is
    [msg]. *)
Definition error : Type := option string.

Definition Errorf (msg : string) : error := Some msg.

Definition isSpace (r : Z) : bool :=
  utf8.in_range 0x0009 0x000d r
  || (r =? 0x0020) || (r =? 0x0085) || (r =? 0x00a0) || (r =? 0x1680)
  || utf8.in_range 0x2000 0x200a r
  || utf8.in_range 0x2028 0x2029 r
  || (r =? 0x202f) || (r =? 0x205f) || (r =? 0x3000).

Definition notSpace (r : Z) : bool := negb (isSpace r).

(** The runes [ReadRune] delivers for a string, in order. *)
Fixpoint runes_fuel (fuel : nat) (s : string) : list Z :=
  match fuel, s with
  | S fuel', String c0 s1 =>
      let (r, rest) := utf8.DecodeRune c0 s1 in r :: runes_fuel fuel' rest
  | _, _ => []
  end.

Definition runes (s : string) : list Z := runes_fuel (String.length s) s.

(** The scanner: a computation over the runes still to be read, which
    either goes on with a value or stops with an error (the panic caught by
    [errorHandler]). *)
Inductive ScanResult (A : Type) : Type :=
| ScanOk (a : A) (rest : list Z)
| ScanErr (msg : string).
Arguments ScanOk {A} a rest.
Arguments ScanErr {A} msg.

Definition Scan (A : Type) : Type := list Z -> ScanResult A.

Definition bind {A B : Type} (m : Scan A) (k : A -> Scan B) : Scan B :=
  fun inp =>
    match m inp with
    | ScanOk a rest => k a rest
    | ScanErr msg => ScanErr msg
    end.

Notation "x <- m ;; k" := (bind m (fun x => k))
  (at level 61, m at next level, right associativity).
Notation "m ;;; k" := (bind m (fun _ => k))
  (at level 61, right associativity).

Definition sign (r : Z) : bool := (r =? 43) || (r =? 45).

(** [decimalDigits + "_"] *)
Definition digits (r : Z) : bool := utf8.in_range 48 57 r || (r =? 95).

(** [SkipSpace] with [nlIsSpace] false, as [Sscanf] sets it. *)
Fixpoint SkipSpace (inp : list Z) : ScanResult unit :=
  match inp with
  | [] => ScanOk tt []
  | r :: inp' =>
      if (r =? 13) && match inp' with 10 :: _ => true | _ => false end
      then SkipSpace inp'
      else if r =? 10 then ScanErr "unexpected newline"
      else if isSpace r then SkipSpace inp'
      else ScanOk tt inp
  end.

Definition notEOF : Scan unit :=
  fun inp =>
    match inp with
    | [] => ScanErr "unexpected EOF"
    | _ => ScanOk tt inp
    end.

(** [accept]: read one rune into the buffer when it is one of [ok]. *)
Definition accept (ok : Z -> bool) (buf : string) : Scan (bool * string) :=
  fun inp =>
    match inp with
    | [] => ScanOk (false, buf) []
    | r :: inp' =>
        if ok r then ScanOk (true, buf ++ utf8.EncodeRune r "") inp'
        else ScanOk (false, buf) inp
    end.

(** [for s.accept(ok) {}] and the loop of [token]. *)
Fixpoint accept_all (ok : Z -> bool) (buf : string) (inp : list Z)
  : ScanResult string :=
  match inp with
  | [] => ScanOk buf []
  | r :: inp' =>
      if ok r then accept_all ok (buf ++ utf8.EncodeRune r "") inp'
      else ScanOk buf inp
  end.

Definition scanNumber (buf : string) : Scan string :=
  notEOF ;;;
  ab <- accept digits buf ;;
  if fst ab then accept_all digits (snd ab)
  else fun _ => ScanErr "expected integer".

(** [scanInt('d', 64)] *)
Definition scanInt : Scan Z :=
  SkipSpace ;;;
  notEOF ;;;
  ab <- accept sign "" ;;
  tok <- scanNumber (snd ab) ;;
  fun inp =>
    match strconv.ParseInt tok with
    | inr i => ScanOk i inp
    | inl strconv.ErrSyntax => ScanErr "invalid syntax"
    | inl strconv.ErrRange => ScanErr "value out of range"
    end.

(** [convertString('s')]: the next space-delimited word. *)
Definition convertString : Scan string :=
  SkipSpace ;;;
  notEOF ;;;
  SkipSpace ;;;
  accept_all notSpace "".

Fixpoint skip_blanks (inp : list Z) : list Z :=
  match inp with
  | r :: inp' => if isSpace r && negb (r =? 10) then skip_blanks inp' else inp
  | [] => []
  end.

(** [advance] over a single space of the format that follows no newline:
    one space or the end of the input, then any run of spaces short of a
    newline. *)
Definition advance_space : Scan unit :=
  fun inp =>
    match inp with
    | [] => ScanOk tt []
    | r :: inp' =>
        if negb (isSpace r)
        then ScanErr "expected space in input to match format"
        else if r =? 10
        then ScanErr "newline in input does not match format"
        else ScanOk tt (skip_blanks inp')
    end.

(** [Sscanf(str, "%d %s", &a0, &a1)], that is [doScanf] unfolded for this
    format: the number of operands assigned, the error, and the operands
    afterwards. *)
Definition Sscanf_d_s (str : string) (a0 : Z) (a1 : string)
  : nat * error * (Z * string) :=
  match (SkipSpace ;;; scanInt) (runes str) with
  | ScanErr msg => (0%nat, Some msg, (a0, a1))
  | ScanOk i inp1 =>
      match (advance_space ;;; SkipSpace ;;; convertString) inp1 with
      | ScanErr msg => (1%nat, Some msg, (i, a1))
      | ScanOk w _ => (2%nat, None, (i, w))
      end
  end.

End fmt.

(** ** Data model *)

(** Modelled from the spec: the [Record] struct is declared in another file
    of the package; the spec gives its fields (zone, FQDN, name, type,
    value, TTL as a string-encoded integer, provider-assigned ID), and the
    source reads and writes each of them as a string. *)
Record DynRecord : Type := mkRecord {
  ID : string;
  Zone : string;
  Name : string;
  Value : string;
  Type_ : string;
  FQDN : string;
  TTL : string
}.

Definition set_ID (v : string) (r : DynRecord) : DynRecord :=
  mkRecord v (Zone r) (Name r) (Value r) (Type_ r) (FQDN r) (TTL r).
Definition set_Zone (v : string) (r : DynRecord) : DynRecord :=
  mkRecord (ID r) v (Name r) (Value r) (Type_ r) (FQDN r) (TTL r).
Definition set_Name (v : string) (r : DynRecord) : DynRecord :=
  mkRecord (ID r) (Zone r) v (Value r) (Type_ r) (FQDN r) (TTL r).
Definition set_Value (v : string) (r : DynRecord) : DynRecord :=
  mkRecord (ID r) (Zone r) (Name r) v (Type_ r) (FQDN r) (TTL r).
Definition set_Type (v : string) (r : DynRecord) : DynRecord :=
  mkRecord (ID r) (Zone r) (Name r) (Value r) v (FQDN r) (TTL r).
Definition set_FQDN (v : string) (r : DynRecord) : DynRecord :=
  mkRecord (ID r) (Zone r) (Name r) (Value r) (Type_ r) v (TTL r).
Definition set_TTL (v : string) (r : DynRecord) : DynRecord :=
  mkRecord (ID r) (Zone r) (Name r) (Value r) (Type_ r) (FQDN r) v.

(** Modelled from the spec: [DataBlock] is declared in another file of the
    package.  The fields are those the source touches (address, alias
    target, canonical name, MX preference and exchange, nameserver name, SOA
    contact, text data); [Preference] is scanned and printed with [%d], an
    [int]. *)
Record DataBlock : Type := mkDataBlock {
  Address : string;
  Alias : string;
  CName : string;
  Preference : Z;
  Exchange : string;
  NSDName : string;
  RName : string;
  TxtData : string
}.

(** [DataBlock{}] *)
Definition DataBlock_zero : DataBlock := mkDataBlock "" "" "" 0 "" "" "" "".

(** Modelled from the spec: the request envelope, [{ rdata: DataBlock, ttl }]. *)
Module RecordRequest.
Record t : Type := mk { RData : DataBlock; TTL : string }.
End RecordRequest.

(** Modelled from the spec: the body of a publish request,
    [{ publish: true }]. *)
Module PublishZoneBlock.
Record t : Type := mk { Publish : bool }.
End PublishZoneBlock.

(** Modelled from the spec: the listing response, [{ data: [url, ...] }]. *)
Module AllRecordsResponse.
Record t : Type := mk { Data : list string }.
Definition zero : t := mk [].
End AllRecordsResponse.

(** Modelled from the spec: the response to a get, with zone, fqdn, record
    type, ttl and the nested type-specific rdata under [Data]; [TTL] goes
    through [strconv.Itoa], an [int]. *)
Module RecordResponse.
Record data : Type := mkData {
  Zone : string;
  FQDN : string;
  RecordType : string;
  TTL : Z;
  RData : DataBlock
}.
Record t : Type := mk { Data : data }.
Definition zero : t := mk (mkData "" "" "" 0 DataBlock_zero).
End RecordResponse.

(** ** The HTTP client collaborator *)

(** What a facade method hands to [Do] as [requestBody]. *)
Inductive Payload : Type :=
| NoBody
| PublishBody (b : PublishZoneBlock.t)
| RecordBody (b : RecordRequest.t).

(** What a facade method hands to [Do] as [responseBody]: nothing, or a
    pointer to a variable of one of two types. *)
Inductive Out : Type := OutNil | OutAllRecords | OutRecord.

Definition OutType (out : Out) : Type :=
  match out with
  | OutNil => unit
  | OutAllRecords => AllRecordsResponse.t
  | OutRecord => RecordResponse.t
  end.

(** What the facade does to the outside, in order. *)
Inductive Event : Type :=
| EvDo (method path : string) (body : Payload)
| EvSleep (d : Z).

Definition DO_RETRY_BACKOFF_FACTOR_MILLIS : Z := 250.
Definition DO_MAX_SLEEP_MILLIS : Z := 2000.
Definition DO_MAX_CUMULATIVE_WAIT_MILLIS : Z := 30000.

(** [time.Millisecond], a [Duration] in nanoseconds. *)
Definition time_Millisecond : Z := 1000000.

Definition supported_types : list string :=
  ["A"; "AAAA"; "ALIAS"; "CNAME"; "MX"; "NS"; "SOA"; "TXT"; "SPF"].

(** ** [buildRData] *)

Definition buildRData (r : DynRecord) : DataBlock * fmt.error :=
  let rdata := DataBlock_zero in
  let t := Type_ r in
  if String.eqb t "A" || String.eqb t "AAAA" then
    (mkDataBlock (Value r) "" "" 0 "" "" "" "", None)
  else if String.eqb t "ALIAS" then
    (mkDataBlock "" (Value r) "" 0 "" "" "" "", None)
  else if String.eqb t "CNAME" then
    (mkDataBlock "" "" (Value r) 0 "" "" "" "", None)
  else if String.eqb t "MX" then
    let '(_, _, (preference, exchange)) :=
      fmt.Sscanf_d_s (Value r) (Preference rdata) (Exchange rdata) in
    (mkDataBlock "" "" "" preference exchange "" "" "", None)
  else if String.eqb t "NS" then
    (mkDataBlock "" "" "" 0 "" (Value r) "" "", None)
  else if String.eqb t "SOA" then
    (mkDataBlock "" "" "" 0 "" "" (Value r) "", None)
  else if String.eqb t "TXT" || String.eqb t "SPF" then
    (mkDataBlock "" "" "" 0 "" "" "" (Value r), None)
  else
    (rdata, fmt.Errorf ("Invalid Dyn record type: " ++ t)).

(** ** The facade *)

(** The part of [GetRecord] after the request: every field but [Value] and
    [ID] is taken from the response, then [Value] by record type. *)
Definition GetRecord_fill (rec : RecordResponse.t) (record : DynRecord)
  : fmt.error * DynRecord :=
  let d := RecordResponse.Data rec in
  let record := set_Zone (RecordResponse.Zone d) record in
  let record := set_FQDN (RecordResponse.FQDN d) record in
  let record :=
    set_Name (strings.TrimSuffix (RecordResponse.FQDN d)
                ("." ++ RecordResponse.Zone d)) record in
  let record := set_Type (RecordResponse.RecordType d) record in
  let record := set_TTL (strconv.Itoa (RecordResponse.TTL d)) record in
  let t := RecordResponse.RecordType d in
  let rdata := RecordResponse.RData d in
  if String.eqb t "A" || String.eqb t "AAAA" then
    (None, set_Value (Address rdata) record)
  else if String.eqb t "ALIAS" then
    (None, set_Value (Alias rdata) record)
  else if String.eqb t "CNAME" then
    (None, set_Value (CName rdata) record)
  else if String.eqb t "MX" then
    (None, set_Value (strconv.Itoa (Preference rdata) ++ " " ++ Exchange rdata)
             record)
  else if String.eqb t "NS" then
    (None, set_Value (NSDName rdata) record)
  else if String.eqb t "SOA" then
    (None, set_Value (RName rdata) record)
  else if String.eqb t "TXT" || String.eqb t "SPF" then
    (None, set_Value (TxtData rdata) record)
  else
    (fmt.Errorf ("Invalid Dyn record type: " ++ t), record).

(** The prefix [GetRecordID] strips from a listed URL. *)
Definition record_URL_prefix (record : DynRecord) : string :=
  "/REST/" ++ Type_ record ++ "Record/" ++ Zone record ++ "/"
  ++ FQDN record ++ "/".

(** The inner [for ... range records.Data] of [GetRecordID]. *)
Fixpoint GetRecordID_range (record : DynRecord) (data : list string)
  (finalID : string) : string :=
  match data with
  | [] => finalID
  | recordURL :: data' =>
      let id := strings.TrimPrefix recordURL (record_URL_prefix record) in
      GetRecordID_range record data'
        (if negb (strings.Contains id "/") && negb (String.eqb id "")
         then id else finalID)
  end.

(** [math.Min(float64(loopCount*DO_RETRY_BACKOFF_FACTOR_MILLIS),
    DO_MAX_SLEEP_MILLIS)].  The product is an [int] and wraps; the [float64]s
    of this function are whole numbers far below 2^53 wherever the loop can
    get, which [float64] holds exactly. *)
Definition sleepTime_of (loopCount : Z) : Z :=
  Z.min (wrap_int (loopCount * DO_RETRY_BACKOFF_FACTOR_MILLIS))
    DO_MAX_SLEEP_MILLIS.

(** The FQDN that [CreateRecord] settles on. *)
Definition CreateRecord_FQDN (record : DynRecord) : DynRecord :=
  if String.eqb (FQDN record) "" && String.eqb (Name record) "" then
    set_FQDN (Zone record) record
  else if String.eqb (FQDN record) "" then
    set_FQDN (Name record ++ "." ++ Zone record) record
  else record.

(** The FQDN that [UpdateRecord] and [DeleteRecord] settle on. *)
Definition UpdateRecord_FQDN (record : DynRecord) : DynRecord :=
  if String.eqb (FQDN record) "" then
    set_FQDN (Name record ++ "." ++ Zone record) record
  else record.

Definition DeleteRecord_FQDN (record : DynRecord) : DynRecord :=
  if String.eqb (FQDN record) "" then
    set_FQDN (Name record ++ "." ++ Zone record) record
  else record.

(** The type of the collaborator's [Do(method, path, requestBody,
    responseBody)]: the error, what [responseBody] points to afterwards, and
    the outside world afterwards. *)
Definition DoType (World : Type) : Type :=
  forall out : Out,
    string -> string -> Payload -> World -> fmt.error * OutType out * World.

Section Facade.

(** The collaborator is a black box: [Do] may answer anything, depending on
    the request and on a state of the outside [World] that it may change;
    [elapse] is what a [time.Sleep] of the given [Duration] lets happen to
    that state. *)
Variable World : Type.
Variable Do : DoType World.
Variable elapse : Z -> World -> World.

(** The client: the world it talks to, and the record of what the facade has
    done so far (kept only to state properties). *)
Record ConvenientClient : Type := mkClient {
  world : World;
  trace : list Event
}.

Definition c_Do (out : Out) (method path : string) (body : Payload)
  (c : ConvenientClient) : fmt.error * OutType out * ConvenientClient :=
  let '(err, v, w) := Do out method path body (world c) in
  (err, v, mkClient w (trace c ++ [EvDo method path body])).

Definition time_Sleep (d : Z) (c : ConvenientClient) : ConvenientClient :=
  mkClient (elapse d (world c)) (trace c ++ [EvSleep d]).

Definition PublishZone (zone : string) (c : ConvenientClient)
  : fmt.error * ConvenientClient :=
  let data := PublishZoneBlock.mk true in
  let '(err, _, c1) := c_Do OutNil "PUT" ("Zone/" ++ zone) (PublishBody data) c in
  (err, c1).

(** How the [for] loop of [GetRecordID] is left. *)
Inductive LoopExit : Type :=
| LoopReturn (err : fmt.error)
| LoopBreak (finalID : string).

(** The [for] loop of [GetRecordID]; [fuel] bounds the number of rounds, and
    [None] means the bound was hit. *)
Fixpoint GetRecordID_for (fuel : nat) (record : DynRecord) (url : string)
  (finalID : string) (loopCount : Z) (cumulativeWaitMillis : Z)
  (c : ConvenientClient) : option (LoopExit * ConvenientClient) :=
  match fuel with
  | O => None
  | S fuel' =>
      let '(err, records, c1) := c_Do OutAllRecords "GET" url NoBody c in
      match err with
      | Some e =>
          Some (LoopReturn (fmt.Errorf ("Failed to find Dyn record id: " ++ e)),
                c1)
      | None =>
          let finalID :=
            GetRecordID_range record (AllRecordsResponse.Data records) finalID in
          if negb (String.eqb finalID "")
             || (DO_MAX_CUMULATIVE_WAIT_MILLIS <=? cumulativeWaitMillis)
          then Some (LoopBreak finalID, c1)
          else
            let sleepTime := sleepTime_of loopCount in
            let c2 := time_Sleep (wrap_int (sleepTime * time_Millisecond)) c1 in
            GetRecordID_for fuel' record url finalID (wrap_int (loopCount + 1))
              (cumulativeWaitMillis + sleepTime) c2
      end
  end.

(** What [GetRecordID] does once the loop is left. *)
Definition GetRecordID_return (exit : LoopExit) (record : DynRecord)
  : fmt.error * DynRecord :=
  match exit with
  | LoopReturn err => (err, record)
  | LoopBreak finalID =>
      if String.eqb finalID "" then
        (fmt.Errorf "Failed to find Dyn record id!", record)
      else (None, set_ID finalID record)
  end.

Definition GetRecordID (fuel : nat) (record : DynRecord) (c : ConvenientClient)
  : option (fmt.error * DynRecord * ConvenientClient) :=
  let finalID := "" in
  let url := "AllRecord/" ++ Zone record ++ "/" ++ FQDN record in
  let loopCount := 1 in
  let cumulativeWaitMillis := 0 in
  match
    GetRecordID_for fuel record url finalID loopCount cumulativeWaitMillis c
  with
  | None => None
  | Some (exit, c1) => Some (GetRecordID_return exit record, c1)
  end.

Definition CreateRecord (record : DynRecord) (c : ConvenientClient)
  : fmt.error * DynRecord * ConvenientClient :=
  let record := CreateRecord_FQDN record in
  let (rdata, err) := buildRData record in
  match err with
  | Some e => (fmt.Errorf ("Failed to create Dyn RData: " ++ e), record, c)
  | None =>
      let url := Type_ record ++ "Record/" ++ Zone record ++ "/" ++ FQDN record in
      let data := RecordRequest.mk rdata (TTL record) in
      let '(err, _, c1) := c_Do OutNil "POST" url (RecordBody data) c in
      (err, record, c1)
  end.

Definition UpdateRecord (record : DynRecord) (c : ConvenientClient)
  : fmt.error * DynRecord * ConvenientClient :=
  let record := UpdateRecord_FQDN record in
  let (rdata, err) := buildRData record in
  match err with
  | Some e => (fmt.Errorf ("Failed to create Dyn RData: " ++ e), record, c)
  | None =>
      let url := Type_ record ++ "Record/" ++ Zone record ++ "/" ++ FQDN record
                 ++ "/" ++ ID record in
      let data := RecordRequest.mk rdata (TTL record) in
      let '(err, _, c1) := c_Do OutNil "PUT" url (RecordBody data) c in
      (err, record, c1)
  end.

Definition DeleteRecord (record : DynRecord) (c : ConvenientClient)
  : fmt.error * DynRecord * ConvenientClient :=
  let record := DeleteRecord_FQDN record in
  if String.eqb (ID record) "" then
    (fmt.Errorf "No ID found! We can't continue!", record, c)
  else
    let url := Type_ record ++ "Record/" ++ Zone record ++ "/" ++ FQDN record
               ++ "/" ++ ID record in
    let '(err, _, c1) := c_Do OutNil "DELETE" url NoBody c in
    (err, record, c1).

Definition GetRecord (record : DynRecord) (c : ConvenientClient)
  : fmt.error * DynRecord * ConvenientClient :=
  let url := Type_ record ++ "Record/" ++ Zone record ++ "/" ++ FQDN record
             ++ "/" ++ ID record in
  let '(err, rec, c1) := c_Do OutRecord "GET" url NoBody c in
  match err with
  | Some _ => (err, record, c1)
  | None => let (err, record) := GetRecord_fill rec record in (err, record, c1)
  end.

End Facade.

Arguments world {World} c.
Arguments trace {World} c.
Arguments mkClient {World} world trace.

(** ** Reading a trace *)

(** The [Duration]s slept, in order. *)
Fixpoint sleeps (evs : list Event) : list Z :=
  match evs with
  | [] => []
  | EvSleep d :: evs' => d :: sleeps evs'
  | EvDo _ _ _ :: evs' => sleeps evs'
  end.

(** The requests made, in order. *)
Fixpoint requests (evs : list Event) : list (string * string * Payload) :=
  match evs with
  | [] => []
  | EvDo method path body :: evs' => (method, path, body) :: requests evs'
  | EvSleep _ :: evs' => requests evs'
  end.

(** [min(N * 250, 2000)], the delay in milliseconds after attempt [N]. *)
Definition backoff_millis (N : nat) : Z := Z.min (Z.of_nat N * 250) 2000.

(** A listed URL's remainder qualifies as an ID: it is not empty and has no
    path separator. *)
Definition is_record_ID (id : string) : Prop :=
  id <> "" /\ ~ In "/"%char (list_ascii_of_string id).

(** Every byte of [s] passes [ok]. *)
Fixpoint all_bytes (ok : ascii -> bool) (s : string) : bool :=
  match s with
  | EmptyString => true
  | String c s' => ok c && all_bytes ok s'
  end.

(** A byte below [utf8.RuneSelf], a rune by itself. *)
Definition is_ascii (c : ascii) : bool := byte_val c <? 128.

(** [s] is well-formed UTF-8 without white space: each rune is decoded from
    the very bytes that encode it, and none is a space.  [fuel] bounds the
    number of runes. *)
Fixpoint word_fuel (fuel : nat) (s : string) : bool :=
  match s with
  | EmptyString => true
  | String c0 s1 =>
      match fuel with
      | O => false
      | S fuel' =>
          let (r, rest) := utf8.DecodeRune c0 s1 in
          fmt.notSpace r
          && String.eqb (utf8.EncodeRune r rest) s
          && word_fuel fuel' rest
      end
  end.

(** A word: not empty, well-formed UTF-8, no white space (as a host name
    is). *)
Definition is_word (e : string) : Prop :=
  e <> "" /\ word_fuel (String.length e) e = true.

(** A value that does not start with an integer: it is empty, or its first
    byte is an ASCII byte other than white space, a sign or a digit. *)
Definition lacks_number (v : string) : Prop :=
  match v with
  | EmptyString => True
  | String c _ =>
      is_ascii c = true /\ fmt.isSpace (byte_val c) = false
      /\ fmt.sign (byte_val c) = false /\ strconv.is_digit c = false
  end.

(** The record types whose value is one string field of the [DataBlock]. *)
Definition plain_types : list string :=
  ["A"; "AAAA"; "ALIAS"; "CNAME"; "NS"; "SOA"; "TXT"; "SPF"].

(** The runes that carry on a run of [ok] runes: none. *)
Definition stops (ok : Z -> bool) (rest : list Z) : Prop :=
  match rest with
  | [] => True
  | r :: _ => ok r = false
  end.

(** The number that the decimal digits of [s] make when read after [n]. *)
Fixpoint digits_val (s : string) (n : Z) : Z :=
  match s with
  | EmptyString => n
  | String c s' => digits_val s' (n * 10 + (byte_val c - 48))
  end.

(** ** Stub collaborators, to run the facade on concrete inputs *)

Definition Out_zero (out : Out) : OutType out :=
  match out with
  | OutNil => tt
  | OutAllRecords => AllRecordsResponse.zero
  | OutRecord => RecordResponse.zero
  end.

(** A provider that answers every request without error: a listing request
    with [listing] once [after] requests have been served and with nothing
    before, a get with [rec].  Its state is the number of requests served. *)
Definition stub_Do (after : nat) (listing : list string) (rec : RecordResponse.t)
  (out : Out) (method path : string) (body : Payload) (w : nat)
  : fmt.error * OutType out * nat :=
  (None,
   match out return OutType out with
   | OutNil => tt
   | OutAllRecords =>
       AllRecordsResponse.mk (if (after <=? w)%nat then listing else [])
   | OutRecord => rec
   end,
   S w).

(** A provider that cannot be reached. *)
Definition down_Do (out : Out) (method path : string) (body : Payload) (w : nat)
  : fmt.error * OutType out * nat :=
  (Some "connection refused", Out_zero out, S w).

Definition stub_elapse (d : Z) (w : nat) : nat := w.

Definition apex_record : DynRecord :=
  mkRecord "123" "example.com" "" "1.2.3.4" "A" "" "60".

Definition www_record : DynRecord :=
  mkRecord "" "example.com" "www" "1.2.3.4" "A" "www.example.com" "60".

(** A response with a record type the facade does not know. *)
Definition ptr_response : RecordResponse.t :=
  RecordResponse.mk
    (RecordResponse.mkData "example.org" "mail.example.org" "PTR" 3600
       DataBlock_zero).

Definition mx_record : DynRecord :=
  mkRecord "" "example.com" "" "10 mail.example.com" "MX" "example.com" "300".

(** A listed URL is accepted by [GetRecordID] for [record]. *)
Definition accepted (record : DynRecord) (url : string) : Prop :=
  is_record_ID (strings.TrimPrefix url (record_URL_prefix record)).

Definition sum_Z (l : list Z) : Z := fold_right Z.add 0 l.

(** What the ramp-up costs: the sleeps from attempt [N] on fall short of
    2000 ms each by this much in total, [sum (2000 - 250 j)] for [j] from
    [N] to 7. *)
Definition ramp_deficit (N : Z) : Z :=
  if N <? 8 then 125 * N * N - 2125 * N + 9000 else 0.

(** A Unicode scalar value: a code point that is no surrogate. *)
Definition valid_rune (r : Z) : Prop :=
  0 <= r < 0xD800 \/ 0xE000 <= r <= 0x10FFFF.

(** The bytes [writeRune] puts into the buffer for these runes in turn. *)
Definition encode_all (rs : list Z) : string :=
  fold_right utf8.EncodeRune "" rs.

(** The runes at the front of [inp] that [ok] admits, and what is left
    behind them. *)
Fixpoint run_of (ok : Z -> bool) (inp : list Z) : list Z :=
  match inp with
  | r :: inp' => if ok r then r :: run_of ok inp' else []
  | [] => []
  end.

Fixpoint after_run (ok : Z -> bool) (inp : list Z) : list Z :=
  match inp with
  | r :: inp' => if ok r then after_run ok inp' else inp
  | [] => []
  end.

(** * Properties *)

(** ** Strings *)

Lemma HasPrefix_app (p x : string) : strings.HasPrefix (p ++ x) p = true.
Proof.
  induction p as [|a p IH]; simpl; [reflexivity|].
  now rewrite Ascii.eqb_refl.
Qed.

Lemma slice_from_app (p x : string) :
  strings.slice_from (String.length p) (p ++ x) = x.
Proof. induction p; simpl; auto. Qed.

Lemma TrimPrefix_app (p x : string) : strings.TrimPrefix (p ++ x) p = x.
Proof.
  unfold strings.TrimPrefix. now rewrite HasPrefix_app, slice_from_app.
Qed.

Lemma Contains_slash (s : string) :
  strings.Contains s "/" = true <-> In "/"%char (list_ascii_of_string s).
Proof.
  induction s as [|c s IH]; simpl.
  - split; [discriminate | tauto].
  - rewrite orb_true_iff, andb_true_r, IH, Ascii.eqb_eq. tauto.
Qed.

Lemma string_eqb_empty (s : string) : String.eqb s "" = true <-> s = "".
Proof. apply String.eqb_eq. Qed.

(** The test of the inner loop is [is_record_ID]. *)
Lemma candidate_test (id : string) :
  negb (strings.Contains id "/") && negb (String.eqb id "") = true
  <-> is_record_ID id.
Proof.
  unfold is_record_ID.
  rewrite andb_true_iff, !negb_true_iff, <- !not_true_iff_false.
  rewrite Contains_slash, string_eqb_empty. tauto.
Qed.

Lemma candidate_test_false (id : string) :
  negb (strings.Contains id "/") && negb (String.eqb id "") = false
  <-> ~ is_record_ID id.
Proof. rewrite <- candidate_test. symmetry. apply not_true_iff_false. Qed.

Lemma list_ascii_app (a b : string) :
  list_ascii_of_string (a ++ b)
  = (list_ascii_of_string a ++ list_ascii_of_string b)%list.
Proof. induction a; simpl; congruence. Qed.

(** ** The inner loop of [GetRecordID] *)

Lemma GetRecordID_range_app (record : DynRecord) (l1 l2 : list string)
  (finalID : string) :
  GetRecordID_range record (l1 ++ l2) finalID
  = GetRecordID_range record l2 (GetRecordID_range record l1 finalID).
Proof. revert finalID. induction l1; simpl; auto. Qed.

Lemma GetRecordID_range_skip (record : DynRecord) (l : list string)
  (finalID : string) :
  Forall (fun u => ~ accepted record u) l ->
  GetRecordID_range record l finalID = finalID.
Proof.
  induction 1 as [|u l Hu _ IH]; simpl; [reflexivity|].
  apply candidate_test_false in Hu. now rewrite Hu.
Qed.

Lemma GetRecordID_range_last (record : DynRecord) (l1 l2 : list string)
  (url finalID : string) :
  accepted record url ->
  Forall (fun u => ~ accepted record u) l2 ->
  GetRecordID_range record (l1 ++ url :: l2) finalID
  = strings.TrimPrefix url (record_URL_prefix record).
Proof.
  intros Hu Hl2. rewrite GetRecordID_range_app. simpl.
  apply candidate_test in Hu. rewrite Hu.
  now apply GetRecordID_range_skip.
Qed.

Lemma GetRecordID_range_only_if (record : DynRecord) (l : list string)
  (finalID : string) :
  GetRecordID_range record l finalID = finalID
  \/ exists url, In url l /\ accepted record url
       /\ GetRecordID_range record l finalID
          = strings.TrimPrefix url (record_URL_prefix record).
Proof.
  revert finalID. induction l as [|u l IH]; intros finalID; simpl; [now left|].
  destruct (negb (strings.Contains _ "/") && negb (String.eqb _ "")) eqn:E.
  - destruct (IH (strings.TrimPrefix u (record_URL_prefix record)))
      as [H | (url & Hin & Hacc & H)].
    + right. exists u. split; [now left|]. split; [now apply candidate_test|].
      exact H.
    + right. exists url. split; [now right|]. now split.
  - destruct (IH finalID) as [H | (url & Hin & Hacc & H)]; [now left|].
    right. exists url. split; [now right|]. now split.
Qed.

Lemma nested_not_accepted (record : DynRecord) (nested : string) :
  In "/"%char (list_ascii_of_string nested) ->
  ~ accepted record (record_URL_prefix record ++ nested).
Proof.
  unfold accepted. rewrite TrimPrefix_app. intros H [_ H']. auto.
Qed.

Lemma plain_accepted (record : DynRecord) (id : string) :
  is_record_ID id -> accepted record (record_URL_prefix record ++ id).
Proof. unfold accepted. now rewrite TrimPrefix_app. Qed.

(** ** The retry loop of [GetRecordID] *)

Lemma wrap_int_small (z : Z) : minInt64 <= z <= maxInt64 -> wrap_int z = z.
Proof.
  unfold wrap_int, minInt64, maxInt64. intros H.
  rewrite Z.mod_small; lia.
Qed.

Lemma sleepTime_of_backoff (N : nat) :
  (1 <= N <= 1000)%nat -> sleepTime_of (Z.of_nat N) = backoff_millis N.
Proof.
  intros H. unfold sleepTime_of, backoff_millis, DO_RETRY_BACKOFF_FACTOR_MILLIS,
    DO_MAX_SLEEP_MILLIS.
  rewrite wrap_int_small; [reflexivity|]. unfold minInt64, maxInt64. lia.
Qed.

Lemma backoff_millis_bounds (N : nat) :
  (1 <= N)%nat -> 250 <= backoff_millis N <= 2000.
Proof. unfold backoff_millis. lia. Qed.

Section Loop.

Variable World : Type.
Variable Do : DoType World.
Variable elapse : Z -> World -> World.

Let loop := GetRecordID_for World Do elapse.

Lemma GetRecordID_for_S (fuel : nat) record url finalID loopCount cum c :
  loop (S fuel) record url finalID loopCount cum c
  = let '(err, records, c1) := c_Do World Do OutAllRecords "GET" url NoBody c in
    match err with
    | Some e =>
        Some (LoopReturn (fmt.Errorf ("Failed to find Dyn record id: " ++ e)), c1)
    | None =>
        let finalID :=
          GetRecordID_range record (AllRecordsResponse.Data records) finalID in
        if negb (String.eqb finalID "")
           || (DO_MAX_CUMULATIVE_WAIT_MILLIS <=? cum)
        then Some (LoopBreak finalID, c1)
        else
          loop fuel record url finalID (wrap_int (loopCount + 1))
            (cum + sleepTime_of loopCount)
            (time_Sleep World elapse
               (wrap_int (sleepTime_of loopCount * time_Millisecond)) c1)
    end.
Proof. reflexivity. Qed.

(** One more unit of fuel changes nothing once the loop has come to an
    end. *)
Lemma GetRecordID_for_fuel_S (fuel : nat) :
  forall record url finalID loopCount cum c res,
    loop fuel record url finalID loopCount cum c = Some res ->
    loop (S fuel) record url finalID loopCount cum c = Some res.
Proof.
  induction fuel as [|fuel IH]; intros record url finalID loopCount cum c res;
    [discriminate|].
  rewrite (GetRecordID_for_S (S fuel)), (GetRecordID_for_S fuel).
  destruct (c_Do World Do OutAllRecords "GET" url NoBody c) as [[err records] c1].
  destruct err as [e|]; [auto|]. cbv zeta.
  destruct (negb _ || _); [auto|].
  apply IH.
Qed.

Lemma GetRecordID_for_fuel_plus (k fuel : nat) :
  forall record url finalID loopCount cum c res,
    loop fuel record url finalID loopCount cum c = Some res ->
    loop (k + fuel) record url finalID loopCount cum c = Some res.
Proof.
  induction k as [|k IH]; intros; simpl; [assumption|].
  apply GetRecordID_for_fuel_S. now apply IH.
Qed.

(** The loop comes to an end, whatever the provider answers, within the
    rounds that the budget allows. *)
Lemma GetRecordID_for_total (fuel : nat) :
  forall (N : nat) record url finalID cum c,
    (1 <= N)%nat ->
    250 * (Z.of_nat N - 1) <= cum ->
    DO_MAX_CUMULATIVE_WAIT_MILLIS
    <= 2000 * (Z.of_nat fuel - 1) - ramp_deficit (Z.of_nat N) + cum ->
    (1 <= fuel)%nat ->
    exists res, loop fuel record url finalID (Z.of_nat N) cum c = Some res.
Proof.
  unfold loop, DO_MAX_CUMULATIVE_WAIT_MILLIS.
  induction fuel as [|fuel IH]; intros N record url finalID cum c HN Hcum Hpot Hf;
    [lia|].
  simpl.
  destruct (c_Do World Do OutAllRecords "GET" url NoBody c) as [[err records] c1].
  destruct err as [e|]; [eauto|].
  destruct (negb _ || _) eqn:E; [eauto|].
  apply orb_false_iff in E. destruct E as [_ E]. apply Z.leb_gt in E.
  unfold DO_MAX_CUMULATIVE_WAIT_MILLIS in E.
  assert (HN' : (N <= 120)%nat) by lia.
  rewrite sleepTime_of_backoff by lia.
  rewrite (wrap_int_small (Z.of_nat N + 1)) by (unfold minInt64, maxInt64; lia).
  replace (Z.of_nat N + 1) with (Z.of_nat (S N)) by lia.
  assert (Hb := backoff_millis_bounds N HN).
  assert (Hd : ramp_deficit (Z.of_nat N) - ramp_deficit (Z.of_nat (S N))
               = 2000 - backoff_millis N).
  { unfold ramp_deficit, backoff_millis.
    destruct (Z.ltb_spec (Z.of_nat N) 8), (Z.ltb_spec (Z.of_nat (S N)) 8); nia. }
  assert (Hr : 0 <= ramp_deficit (Z.of_nat N)).
  { unfold ramp_deficit. destruct (Z.ltb_spec (Z.of_nat N) 8); nia. }
  apply IH; lia.
Qed.

(** What a finished loop leaves in the trace: requests for [url] with a
    sleep between any two of them, the sleeps being the back-off delays of
    the attempts from [N] on. *)
Lemma GetRecordID_for_trace (fuel : nat) :
  forall (N : nat) record url finalID cum c exit c',
    (1 <= N)%nat ->
    250 * (Z.of_nat N - 1) <= cum ->
    loop fuel record url finalID (Z.of_nat N) cum c = Some (exit, c') ->
    exists evs,
      trace c' = (trace c ++ EvDo "GET" url NoBody :: evs)%list
      /\ sleeps evs
         = map (fun n => backoff_millis n * time_Millisecond)
             (seq N (List.length (sleeps evs)))
      /\ requests evs
         = repeat ("GET", url, NoBody) (List.length (sleeps evs))
      /\ (List.length (sleeps evs) < fuel)%nat.
Proof.
  unfold loop.
  induction fuel as [|fuel IH]; intros N record url finalID cum c exit c' HN Hcum;
    [discriminate|].
  simpl. unfold c_Do.
  destruct (Do OutAllRecords "GET" url NoBody (world c)) as [[err records] w].
  destruct err as [e|].
  { intros [= <- <-]. exists []. simpl. repeat split; auto. lia. }
  destruct (negb _ || _) eqn:E.
  { intros [= <- <-]. exists []. simpl. repeat split; auto. lia. }
  apply orb_false_iff in E. destruct E as [_ E]. apply Z.leb_gt in E.
  unfold DO_MAX_CUMULATIVE_WAIT_MILLIS in E.
  rewrite sleepTime_of_backoff by lia.
  rewrite (wrap_int_small (Z.of_nat N + 1)) by (unfold minInt64, maxInt64; lia).
  replace (Z.of_nat N + 1) with (Z.of_nat (S N)) by lia.
  assert (Hb := backoff_millis_bounds N HN).
  rewrite wrap_int_small
    by (unfold minInt64, maxInt64, time_Millisecond; lia).
  intros H. apply IH in H; [|lia|lia].
  destruct H as (evs & Ht & Hs & Hr & Hl). simpl in Ht.
  exists (EvSleep (backoff_millis N * time_Millisecond)
            :: EvDo "GET" url NoBody :: evs).
  simpl. repeat split.
  - rewrite Ht, <- !app_assoc. reflexivity.
  - f_equal. exact Hs.
  - f_equal. exact Hr.
  - lia.
Qed.

End Loop.

Lemma backoff_total (n : nat) :
  (n <= 19)%nat ->
  sum_Z (map (fun N => backoff_millis N * time_Millisecond) (seq 1 n))
  <= 31000 * time_Millisecond.
Proof.
  intros H.
  do 20 (destruct n as [|n]; [vm_compute; discriminate|]). lia.
Qed.

Section GetRecordIDRuns.

Variable World : Type.
Variable Do : DoType World.
Variable elapse : Z -> World -> World.

(** How the loop is left: with a failed request, with an ID that
    qualifies, or empty-handed. *)
Lemma GetRecordID_for_exit (fuel : nat) :
  forall record url loopCount cum c exit c',
    GetRecordID_for World Do elapse fuel record url "" loopCount cum c
    = Some (exit, c') ->
    match exit with
    | LoopReturn err => err <> None
    | LoopBreak finalID => finalID = "" \/ is_record_ID finalID
    end.
Proof.
  induction fuel as [|fuel IH]; intros record url loopCount cum c exit c';
    [discriminate|].
  simpl.
  destruct (c_Do World Do OutAllRecords "GET" url NoBody c) as [[err records] c1].
  destruct err as [e|]; [intros [= <- <-]; discriminate|].
  destruct (negb _ || _) eqn:E.
  - intros [= <- <-].
    destruct (GetRecordID_range_only_if record
                (AllRecordsResponse.Data records) "")
      as [H | (u & _ & Hacc & H)]; [now left|].
    right. rewrite H. exact Hacc.
  - apply orb_false_iff in E. destruct E as [E _].
    apply negb_false_iff, String.eqb_eq in E. rewrite E. apply IH.
Qed.

(** Every run of [GetRecordID] with room for twenty rounds: it returns; it
    starts with the listing request; after that each sleep is followed by
    one more such request; the sleeps are the back-off delays of attempts 1,
    2, ... and there are at most nineteen. *)
Lemma GetRecordID_run (fuel : nat) (record : DynRecord)
  (c : ConvenientClient World) :
  (20 <= fuel)%nat ->
  let url := "AllRecord/" ++ Zone record ++ "/" ++ FQDN record in
  exists exit c' evs,
    GetRecordID_for World Do elapse fuel record url "" 1 0 c = Some (exit, c')
    /\ GetRecordID World Do elapse fuel record c
       = Some (GetRecordID_return exit record, c')
    /\ trace c' = (trace c ++ EvDo "GET" url NoBody :: evs)%list
    /\ sleeps evs
       = map (fun N => backoff_millis N * time_Millisecond)
           (seq 1 (List.length (sleeps evs)))
    /\ requests evs = repeat ("GET", url, NoBody) (List.length (sleeps evs))
    /\ (List.length (sleeps evs) <= 19)%nat.
Proof.
  intros Hfuel url.
  destruct (GetRecordID_for_total World Do elapse 20 1 record url "" 0 c)
    as [[exit c'] H20]; [lia | simpl; lia | vm_compute; discriminate | lia |].
  assert (H : GetRecordID_for World Do elapse fuel record url "" 1 0 c
              = Some (exit, c')).
  { replace fuel with ((fuel - 20) + 20)%nat by lia.
    now apply GetRecordID_for_fuel_plus. }
  destruct (GetRecordID_for_trace World Do elapse 20 1 record url "" 0 c exit c')
    as (evs & Ht & Hs & Hr & Hl); try lia; [exact H20|].
  exists exit, c', evs. repeat split; auto; [|lia].
  unfold GetRecordID. fold url. change (Z.of_nat 1) with 1 in H. now rewrite H.
Qed.

End GetRecordIDRuns.

Lemma requests_length_repeat (evs : list Event) (x : string * string * Payload)
  (n : nat) : requests evs = repeat x n -> List.length (requests evs) = n.
Proof. intros ->. apply repeat_length. Qed.

Lemma string_eqb_neq (s : string) : s <> "" -> String.eqb s "" = false.
Proof. intros H. now apply String.eqb_neq. Qed.

(** C3: [GetRecordID] takes a listed URL's remainder for the ID only if,
    with the prefix ["/REST/{type}Record/{zone}/{fqdn}/"] stripped, it is
    not empty and has no ["/"]; the last URL that qualifies decides; and of
    a listing of one plain and one nested URL under the prefix, in either
    order, the plain one's suffix becomes the record's ID. *)
Theorem GetRecordID_candidate_selection (record : DynRecord) :
  (forall data finalID,
      GetRecordID_range record data finalID = finalID
      \/ exists url, In url data
           /\ GetRecordID_range record data finalID
              = strings.TrimPrefix url (record_URL_prefix record)
           /\ is_record_ID (GetRecordID_range record data finalID))
  /\ (forall l1 url l2 finalID,
        accepted record url ->
        Forall (fun u => ~ accepted record u) l2 ->
        GetRecordID_range record (l1 ++ url :: l2) finalID
        = strings.TrimPrefix url (record_URL_prefix record))
  /\ (forall id nested data World (Do : DoType World) elapse fuel
        (c : ConvenientClient World) w,
        is_record_ID id ->
        In "/"%char (list_ascii_of_string nested) ->
        data = [record_URL_prefix record ++ id;
                record_URL_prefix record ++ nested]
        \/ data = [record_URL_prefix record ++ nested;
                   record_URL_prefix record ++ id] ->
        let url := "AllRecord/" ++ Zone record ++ "/" ++ FQDN record in
        Do OutAllRecords "GET" url NoBody (world c)
        = (None, AllRecordsResponse.mk data, w) ->
        GetRecordID World Do elapse (S fuel) record c
        = Some (None, set_ID id record,
                mkClient w (trace c ++ [EvDo "GET" url NoBody]))).
Proof.
  split; [|split].
  - intros data finalID.
    destruct (GetRecordID_range_only_if record data finalID)
      as [H | (url & Hin & Hacc & H)]; [now left|].
    right. exists url. repeat split; auto; rewrite H; apply Hacc.
  - intros. now apply GetRecordID_range_last.
  - intros id nested data World Do elapse fuel c w Hid Hnested Hdata url HDo.
    assert (Hsel : GetRecordID_range record data "" = id).
    { pose proof (plain_accepted record id Hid) as Hp.
      pose proof (nested_not_accepted record nested Hnested) as Hn.
      destruct Hdata as [-> | ->].
      - etransitivity; [|apply (TrimPrefix_app (record_URL_prefix record) id)].
        apply (GetRecordID_range_last record [] [_] _ "" Hp). now constructor.
      - etransitivity; [|apply (TrimPrefix_app (record_URL_prefix record) id)].
        apply (GetRecordID_range_last record [_] [] _ "" Hp). constructor. }
    unfold GetRecordID. fold url. simpl. unfold c_Do. rewrite HDo. simpl.
    rewrite Hsel. destruct Hid as [Hne Hns].
    rewrite (string_eqb_neq id Hne). simpl.
    now rewrite (string_eqb_neq id Hne).
Qed.

Lemma GetRecordID_candidate_selection_witness :
  GetRecordID nat
    (stub_Do 0 ["/REST/ARecord/example.com/www.example.com/4242/child";
                "/REST/ARecord/example.com/www.example.com/4242"]
       RecordResponse.zero)
    stub_elapse 1 www_record (mkClient 0%nat [])
  = Some (None, set_ID "4242" www_record,
          mkClient 1%nat
            [EvDo "GET" "AllRecord/example.com/www.example.com" NoBody]).
Proof.
  apply (proj2 (proj2 (GetRecordID_candidate_selection www_record))
           "4242" "4242/child"
           ["/REST/ARecord/example.com/www.example.com/4242/child";
            "/REST/ARecord/example.com/www.example.com/4242"]
           nat _ stub_elapse 0%nat (mkClient 0%nat []) 1%nat).
  - split; [discriminate|]. simpl. intuition discriminate.
  - simpl. tauto.
  - right. reflexivity.
  - reflexivity.
Defined.

(** C4: [GetRecordID] returns, whatever the provider answers: within twenty
    requests and nineteen sleeps of 31000 ms in all, and with an error
    unless it has an ID.  And once the sleeps have added up to 30000 ms with
    no ID found, the next round is the last: after its request the loop is
    left without another sleep, and the error is returned unless that very
    listing holds an ID. *)
Theorem GetRecordID_terminates (World : Type) (Do : DoType World)
  (elapse : Z -> World -> World) (fuel : nat) (record : DynRecord)
  (c : ConvenientClient World) :
  (20 <= fuel)%nat ->
  (exists err record' c' evs,
      GetRecordID World Do elapse fuel record c = Some (err, record', c')
      /\ trace c' = (trace c ++ evs)%list
      /\ (List.length (requests evs) <= 20)%nat
      /\ (List.length (sleeps evs) <= 19)%nat
      /\ sum_Z (sleeps evs) <= 31000 * time_Millisecond
      /\ (err = None -> is_record_ID (ID record')))
  /\ (forall loopCount cum url,
        DO_MAX_CUMULATIVE_WAIT_MILLIS <= cum ->
        exists exit c1,
          GetRecordID_for World Do elapse fuel record url "" loopCount cum c
          = Some (exit, c1)
          /\ trace c1 = (trace c ++ [EvDo "GET" url NoBody])%list
          /\ (exit = LoopBreak ""
              \/ (exists e, exit = LoopReturn (Some e))
              \/ (exists finalID, exit = LoopBreak finalID
                                  /\ is_record_ID finalID))
          /\ GetRecordID_return (LoopBreak "") record
             = (Some "Failed to find Dyn record id!", record)).
Proof.
  intros Hfuel. split.
  - destruct (GetRecordID_run World Do elapse fuel record c Hfuel)
      as (exit & c' & evs & Hloop & Hrun & Ht & Hs & Hr & Hl).
    exists (fst (GetRecordID_return exit record)),
      (snd (GetRecordID_return exit record)), c', (EvDo "GET"
        ("AllRecord/" ++ Zone record ++ "/" ++ FQDN record) NoBody :: evs).
    rewrite <- surjective_pairing.
    split; [exact Hrun|]. split; [exact Ht|].
    split; [simpl; rewrite (requests_length_repeat _ _ _ Hr); lia|].
    split; [exact Hl|].
    split; [simpl; rewrite Hs; now apply backoff_total|].
    apply GetRecordID_for_exit in Hloop.
    destruct exit as [err | finalID]; simpl; [tauto|].
    destruct (String.eqb finalID "") eqn:E; simpl; intros He;
      [unfold fmt.Errorf in He; discriminate He|].
    apply String.eqb_neq in E. tauto.
  - intros loopCount cum url Hcum.
    destruct fuel as [|fuel]; [lia|].
    destruct (GetRecordID_for World Do elapse (S fuel) record url ""
                loopCount cum c) as [[exit c1]|] eqn:Hloop.
    + pose proof (GetRecordID_for_exit World Do elapse _ _ _ _ _ _ _ _ Hloop)
        as Hexit.
      exists exit, c1. split; [reflexivity|].
      simpl in Hloop. unfold c_Do in Hloop.
      destruct (Do OutAllRecords "GET" url NoBody (world c))
        as [[err records] w].
      apply Z.leb_le in Hcum.
      destruct err as [e|].
      * injection Hloop as <- <-. split; [reflexivity|].
        split; [right; left; eauto | reflexivity].
      * rewrite Hcum, orb_true_r in Hloop. injection Hloop as <- <-.
        split; [reflexivity|]. split; [|reflexivity].
        destruct Hexit as [-> | Hid]; [now left|].
        right; right. eauto.
    + exfalso. simpl in Hloop. unfold c_Do in Hloop.
      destruct (Do OutAllRecords "GET" url NoBody (world c))
        as [[err records] w].
      apply Z.leb_le in Hcum.
      destruct err as [e|]; [discriminate Hloop|].
      rewrite Hcum, orb_true_r in Hloop. discriminate Hloop.
Qed.

Lemma GetRecordID_terminates_witness :
  exists err record' c' evs,
    GetRecordID nat (stub_Do 1000 [] RecordResponse.zero) stub_elapse 20
      www_record (mkClient 0%nat [])
    = Some (err, record', c')
    /\ trace c' = ([] ++ evs)%list
    /\ (List.length (requests evs) <= 20)%nat
    /\ (List.length (sleeps evs) <= 19)%nat
    /\ sum_Z (sleeps evs) <= 31000 * time_Millisecond
    /\ (err = None -> is_record_ID (ID record')).
Proof.
  exact (proj1 (GetRecordID_terminates nat
                  (stub_Do 1000 [] RecordResponse.zero) stub_elapse 20
                  www_record (mkClient 0%nat []) (le_n 20))).
Defined.

(** C5: every run of [GetRecordID] starts with a listing request for
    ["AllRecord/{zone}/{fqdn}"], whatever the record and whatever the
    provider answers. *)
Theorem GetRecordID_first_request (World : Type) (Do : DoType World)
  (elapse : Z -> World -> World) (fuel : nat) (record : DynRecord)
  (c : ConvenientClient World) :
  (20 <= fuel)%nat ->
  exists err record' c' evs,
    GetRecordID World Do elapse fuel record c = Some (err, record', c')
    /\ trace c'
       = (trace c
          ++ EvDo "GET" ("AllRecord/" ++ Zone record ++ "/" ++ FQDN record)
               NoBody :: evs)%list.
Proof.
  intros Hfuel.
  destruct (GetRecordID_run World Do elapse fuel record c Hfuel)
    as (exit & c' & evs & _ & Hrun & Ht & _).
  exists (fst (GetRecordID_return exit record)),
    (snd (GetRecordID_return exit record)), c', evs.
  rewrite <- surjective_pairing. now split.
Qed.

Lemma GetRecordID_first_request_witness :
  exists err record' c' evs,
    GetRecordID nat
      (stub_Do 0 ["/REST/ARecord/example.com/www.example.com/4242"]
         RecordResponse.zero) stub_elapse 20 www_record (mkClient 0%nat [])
    = Some (err, record', c')
    /\ trace c'
       = ([] ++ EvDo "GET" ("AllRecord/" ++ "example.com" ++ "/"
                            ++ "www.example.com") NoBody :: evs)%list.
Proof.
  exact (GetRecordID_first_request nat
           (stub_Do 0 ["/REST/ARecord/example.com/www.example.com/4242"]
              RecordResponse.zero) stub_elapse 20%nat www_record
           (mkClient 0%nat []) (le_n 20)).
Defined.



(** ** FQDN derivation *)

(** With a name or an FQDN at hand, all three methods settle on the same
    FQDN. *)
Lemma UpdateRecord_FQDN_agrees (record : DynRecord) :
  FQDN record <> "" \/ Name record <> "" ->
  UpdateRecord_FQDN record = CreateRecord_FQDN record
  /\ DeleteRecord_FQDN record = CreateRecord_FQDN record.
Proof.
  unfold UpdateRecord_FQDN, DeleteRecord_FQDN, CreateRecord_FQDN.
  intros [H | H].
  - rewrite (string_eqb_neq _ H). now simpl.
  - rewrite (string_eqb_neq _ H), andb_false_r. now split.
Qed.

(** C1, at the apex record (FQDN and name both empty, zone
    ["example.com"]): [CreateRecord] settles on the zone, while
    [UpdateRecord] and [DeleteRecord] settle on [".example.com"] and address
    their request to it. *)
Theorem UpdateRecord_DeleteRecord_apex_FQDN (World : Type) (Do : DoType World)
  (c : ConvenientClient World) :
  FQDN (snd (fst (CreateRecord World Do apex_record c))) = "example.com"
  /\ FQDN (snd (fst (UpdateRecord World Do apex_record c))) = ".example.com"
  /\ FQDN (snd (fst (DeleteRecord World Do apex_record c))) = ".example.com"
  /\ trace (snd (UpdateRecord World Do apex_record c))
     = (trace c
        ++ [EvDo "PUT" "ARecord/example.com/.example.com/123"
              (RecordBody
                 (RecordRequest.mk
                    (mkDataBlock "1.2.3.4" "" "" 0 "" "" "" "") "60"))])%list
  /\ trace (snd (DeleteRecord World Do apex_record c))
     = (trace c
        ++ [EvDo "DELETE" "ARecord/example.com/.example.com/123" NoBody])%list.
Proof.
  unfold CreateRecord, UpdateRecord, DeleteRecord, c_Do. simpl.
  repeat match goal with
         | |- context [Do ?o ?m ?p ?b ?w] => destruct (Do o m p b w) as [[? ?] ?]
         end.
  simpl. repeat split; reflexivity.
Qed.

(** ** [DeleteRecord] *)

(** C2: with an empty ID, [DeleteRecord] returns an error and leaves the
    client as it was: nothing is added to the trace and the outside world is
    not touched, so [Do] is not called. *)
Theorem DeleteRecord_empty_ID (World : Type) (Do : DoType World)
  (record : DynRecord) (c : ConvenientClient World) :
  ID record = "" ->
  DeleteRecord World Do record c
  = (Some "No ID found! We can't continue!", DeleteRecord_FQDN record, c).
Proof.
  intros H. unfold DeleteRecord.
  assert (E : ID (DeleteRecord_FQDN record) = "").
  { unfold DeleteRecord_FQDN. now destruct (String.eqb (FQDN record) ""). }
  now rewrite E.
Qed.

Lemma DeleteRecord_empty_ID_witness :
  DeleteRecord nat (stub_Do 0 [] RecordResponse.zero) www_record
    (mkClient 0%nat [])
  = (Some "No ID found! We can't continue!", www_record, mkClient 0%nat []).
Proof.
  exact (DeleteRecord_empty_ID nat (stub_Do 0 [] RecordResponse.zero)
           www_record (mkClient 0%nat []) eq_refl).
Defined.

(** ** Record types *)

Ltac decide_type H :=
  repeat match goal with
         | |- context [String.eqb ?a ?b] =>
             let E := fresh "E" in
             destruct (String.eqb_spec a b) as [E | E];
             [exfalso; apply H; rewrite E; simpl; tauto|]
         end.

Lemma buildRData_unsupported (r : DynRecord) :
  ~ In (Type_ r) supported_types ->
  buildRData r
  = (DataBlock_zero, Some ("Invalid Dyn record type: " ++ Type_ r)).
Proof.
  intros H. unfold buildRData. decide_type H. reflexivity.
Qed.

Lemma buildRData_supported (r : DynRecord) :
  In (Type_ r) supported_types -> snd (buildRData r) = None.
Proof.
  unfold buildRData, supported_types. simpl.
  intros H. decompose [or] H; try contradiction;
    match goal with E : _ = Type_ r |- _ => rewrite <- E end;
    simpl; try reflexivity.
  now destruct (fmt.Sscanf_d_s (Value r) _ _) as [[? ?] [? ?]].
Qed.

(** With a record type it does not know, the tail of [GetRecord] has
    overwritten five fields by the time it returns its error. *)
Lemma GetRecord_fill_unsupported (rec : RecordResponse.t) (record : DynRecord) :
  let d := RecordResponse.Data rec in
  ~ In (RecordResponse.RecordType d) supported_types ->
  GetRecord_fill rec record
  = (Some ("Invalid Dyn record type: " ++ RecordResponse.RecordType d),
     mkRecord (ID record) (RecordResponse.Zone d)
       (strings.TrimSuffix (RecordResponse.FQDN d)
          ("." ++ RecordResponse.Zone d))
       (Value record) (RecordResponse.RecordType d) (RecordResponse.FQDN d)
       (strconv.Itoa (RecordResponse.TTL d))).
Proof.
  intros d H. unfold GetRecord_fill. fold d. decide_type H. reflexivity.
Qed.

Lemma GetRecord_fill_supported (rec : RecordResponse.t) (record : DynRecord) :
  In (RecordResponse.RecordType (RecordResponse.Data rec)) supported_types ->
  fst (GetRecord_fill rec record) = None.
Proof.
  unfold GetRecord_fill, supported_types. simpl.
  intros H. decompose [or] H; try contradiction;
    match goal with E : _ = RecordResponse.RecordType _ |- _ => rewrite <- E end;
    reflexivity.
Qed.

(** C8: [buildRData] returns an error for every record type outside the
    nine supported ones (and for none of the nine), and so does [GetRecord]
    whenever the response to its request carries such a record type: the
    error of the request if it failed, its own otherwise. *)
Theorem unsupported_type_is_an_error :
  (forall r : DynRecord,
      ~ In (Type_ r) supported_types ->
      buildRData r
      = (DataBlock_zero, Some ("Invalid Dyn record type: " ++ Type_ r)))
  /\ (forall r : DynRecord,
        In (Type_ r) supported_types -> snd (buildRData r) = None)
  /\ (forall (World : Type) (Do : DoType World) (record : DynRecord)
        (c : ConvenientClient World) (err : fmt.error)
        (rec : RecordResponse.t) (w : World),
        let url := Type_ record ++ "Record/" ++ Zone record ++ "/"
                   ++ FQDN record ++ "/" ++ ID record in
        let t := RecordResponse.RecordType (RecordResponse.Data rec) in
        Do OutRecord "GET" url NoBody (world c) = (err, rec, w) ->
        ~ In t supported_types ->
        fst (fst (GetRecord World Do record c))
        = match err with
          | Some e => Some e
          | None => Some ("Invalid Dyn record type: " ++ t)
          end).
Proof.
  split; [exact buildRData_unsupported|]. split; [exact buildRData_supported|].
  intros World Do record c err rec w url t HDo Ht.
  unfold GetRecord, c_Do. fold url. rewrite HDo.
  destruct err as [e|]; [reflexivity|].
  now rewrite (GetRecord_fill_unsupported rec record Ht).
Qed.

Lemma unsupported_type_is_an_error_witness :
  buildRData (mkRecord "" "example.com" "www" "1.2.3.4" "PTR" "" "60")
  = (DataBlock_zero, Some "Invalid Dyn record type: PTR")
  /\ fst (fst (GetRecord nat (stub_Do 0 [] ptr_response) www_record
                 (mkClient 0%nat [])))
     = Some "Invalid Dyn record type: PTR".
Proof.
  split.
  - apply (proj1 unsupported_type_is_an_error
             (mkRecord "" "example.com" "www" "1.2.3.4" "PTR" "" "60")).
    simpl. intuition discriminate.
  - apply (proj2 (proj2 unsupported_type_is_an_error) nat
             (stub_Do 0 [] ptr_response) www_record (mkClient 0%nat [])
             None ptr_response 1%nat).
    + reflexivity.
    + simpl. intuition discriminate.
Defined.

(** C10: when the request of [GetRecord] succeeds but the response carries
    a record type outside the supported ones, [GetRecord] returns its error
    with the record's zone, FQDN, name, type and TTL already taken from the
    response; the value (and the ID) are as before. *)
Theorem GetRecord_unknown_type_overwrites (World : Type) (Do : DoType World)
  (record : DynRecord) (c : ConvenientClient World) (rec : RecordResponse.t)
  (w : World) :
  let url := Type_ record ++ "Record/" ++ Zone record ++ "/" ++ FQDN record
             ++ "/" ++ ID record in
  let d := RecordResponse.Data rec in
  Do OutRecord "GET" url NoBody (world c) = (None, rec, w) ->
  ~ In (RecordResponse.RecordType d) supported_types ->
  exists msg record' c',
    GetRecord World Do record c = (Some msg, record', c')
    /\ Zone record' = RecordResponse.Zone d
    /\ FQDN record' = RecordResponse.FQDN d
    /\ Name record'
       = strings.TrimSuffix (RecordResponse.FQDN d) ("." ++ RecordResponse.Zone d)
    /\ Type_ record' = RecordResponse.RecordType d
    /\ TTL record' = strconv.Itoa (RecordResponse.TTL d)
    /\ Value record' = Value record
    /\ ID record' = ID record.
Proof.
  intros url d HDo Ht.
  unfold GetRecord, c_Do. fold url. rewrite HDo.
  rewrite (GetRecord_fill_unsupported rec record Ht). fold d.
  do 3 eexists. split; [reflexivity|]. simpl. repeat split.
Qed.

Lemma GetRecord_unknown_type_overwrites_witness :
  exists msg record' c',
    GetRecord nat (stub_Do 0 [] ptr_response) www_record (mkClient 0%nat [])
    = (Some msg, record', c')
    /\ Zone record' = "example.org"
    /\ FQDN record' = "mail.example.org"
    /\ Name record' = strings.TrimSuffix "mail.example.org" ("." ++ "example.org")
    /\ Type_ record' = "PTR"
    /\ TTL record' = strconv.Itoa 3600
    /\ Value record' = Value www_record
    /\ ID record' = ID www_record.
Proof.
  apply (GetRecord_unknown_type_overwrites nat (stub_Do 0 [] ptr_response)
           www_record (mkClient 0%nat []) ptr_response 1%nat).
  - reflexivity.
  - simpl. intuition discriminate.
Defined.

(** ** Decimal numbers: [strconv.Itoa] and [strconv.ParseInt] *)

Lemma byte_val_range (c : ascii) : 0 <= byte_val c < 256.
Proof.
  unfold byte_val. pose proof (N_ascii_bounded c). lia.
Qed.

Lemma byte_of_val (c : ascii) : byte_of (byte_val c) = c.
Proof.
  unfold byte_of, byte_val. rewrite N2Z.id. apply ascii_N_embedding.
Qed.

Lemma byte_val_of (z : Z) : 0 <= z < 256 -> byte_val (byte_of z) = z.
Proof.
  intros H. unfold byte_of, byte_val.
  rewrite N_ascii_embedding by lia. lia.
Qed.

Lemma is_digit_spec (c : ascii) :
  strconv.is_digit c = true <-> 48 <= byte_val c <= 57.
Proof.
  unfold strconv.is_digit, utf8.in_range.
  rewrite andb_true_iff, !Z.leb_le. tauto.
Qed.

Lemma digit_byte_is_digit (d : Z) :
  0 <= d <= 9 -> strconv.is_digit (strconv.digit_byte d) = true
                 /\ byte_val (strconv.digit_byte d) - 48 = d.
Proof.
  intros H. unfold strconv.digit_byte.
  rewrite is_digit_spec, byte_val_of by lia. lia.
Qed.

Lemma string_app_assoc (a b c : string) : (a ++ b) ++ c = a ++ (b ++ c).
Proof. induction a; simpl; congruence. Qed.

Lemma string_app_empty (a : string) : a ++ "" = a.
Proof. induction a; simpl; congruence. Qed.

Lemma all_bytes_app (ok : ascii -> bool) (a b : string) :
  all_bytes ok (a ++ b) = all_bytes ok a && all_bytes ok b.
Proof.
  induction a as [|c a IH]; simpl; [reflexivity|].
  now rewrite IH, andb_assoc.
Qed.

Lemma digits_val_app (a b : string) (n : Z) :
  digits_val (a ++ b) n = digits_val b (digits_val a n).
Proof. revert n. induction a; simpl; auto. Qed.

Lemma digits_val_mono (s : string) :
  forall n, all_bytes strconv.is_digit s = true -> 0 <= n ->
            n <= digits_val s n.
Proof.
  induction s as [|c s IH]; simpl; intros n H Hn; [lia|].
  apply andb_true_iff in H. destruct H as [Hc Hs].
  apply is_digit_spec in Hc.
  specialize (IH (n * 10 + (byte_val c - 48)) Hs). lia.
Qed.

(** What [formatBits] writes: a non-empty run of digits that reads back as
    the number. *)
Lemma formatBits_digits (fuel : nat) :
  forall u a,
    0 <= u < 2 ^ Z.of_nat (S fuel) ->
    exists ds,
      strconv.formatBits (S fuel) u a = ds ++ a
      /\ ds <> ""
      /\ all_bytes strconv.is_digit ds = true
      /\ digits_val ds 0 = u.
Proof.
  induction fuel as [|fuel IH]; intros u a Hu.
  - change (2 ^ Z.of_nat 1) with 2 in Hu.
    assert (E : (10 <=? u) = false) by (apply Z.leb_gt; lia).
    simpl. rewrite E.
    destruct (digit_byte_is_digit u) as [Hd Hv]; [lia|].
    exists (String (strconv.digit_byte u) "").
    simpl. rewrite Hd, Hv. repeat split; auto. discriminate.
  - remember (S fuel) as f eqn:Ef.
    change (strconv.formatBits (S f) u a)
      with (if 10 <=? u
            then strconv.formatBits f (u / 10)
                   (String (strconv.digit_byte (u mod 10)) a)
            else String (strconv.digit_byte u) a).
    destruct (Z.leb_spec 10 u) as [H10 | H10].
    + assert (Hu' : 0 <= u / 10 < 2 ^ Z.of_nat f).
      { rewrite Nat2Z.inj_succ, Z.pow_succ_r in Hu by lia.
        split; [apply Z.div_pos; lia|].
        apply Z.div_lt_upper_bound; lia. }
      destruct (IH (u / 10) (String (strconv.digit_byte (u mod 10)) a) Hu')
        as (ds & Hf & Hne & Hds & Hv).
      destruct (digit_byte_is_digit (u mod 10)) as [Hd Hdv].
      { pose proof (Z.mod_pos_bound u 10). lia. }
      exists (ds ++ String (strconv.digit_byte (u mod 10)) "").
      rewrite Hf, string_app_assoc. simpl. repeat split.
      * destruct ds; [congruence | discriminate].
      * rewrite all_bytes_app, Hds. simpl. now rewrite Hd.
      * rewrite digits_val_app, Hv. simpl. rewrite Hdv.
        pose proof (Z.div_mod u 10). lia.
    + destruct (digit_byte_is_digit u) as [Hd Hv]; [lia|].
      exists (String (strconv.digit_byte u) "").
      simpl. rewrite Hd, Hv. repeat split; auto. discriminate.
Qed.

(** [ParseUint] reads a run of digits as its number, as long as that fits a
    [uint64]. *)
Lemma ParseUint_loop_digits (s : string) :
  forall n,
    all_bytes strconv.is_digit s = true ->
    0 <= n ->
    digits_val s n <= maxUint64 ->
    strconv.ParseUint_loop s n = inr (digits_val s n).
Proof.
  induction s as [|c s IH]; cbn [strconv.ParseUint_loop digits_val all_bytes];
    intros n H Hn Hmax; [reflexivity|].
  apply andb_true_iff in H. destruct H as [Hc Hs]. rewrite Hc.
  apply is_digit_spec in Hc.
  pose proof (digits_val_mono s (n * 10 + (byte_val c - 48)) Hs) as Hm.
  unfold maxUint64 in *.
  change (2 ^ 64 - 1) with 18446744073709551615 in *.
  change (2 ^ 64) with 18446744073709551616.
  change (18446744073709551615 / 10 + 1) with 1844674407370955162.
  assert (E1 : (1844674407370955162 <=? n) = false) by (apply Z.leb_gt; lia).
  rewrite E1. cbv zeta.
  rewrite (Z.mod_small (n * 10 + (byte_val c - 48))) by lia.
  assert (E2 : (n * 10 + (byte_val c - 48) <? n * 10) = false)
    by (apply Z.ltb_ge; lia).
  assert (E3 : (18446744073709551615 <? n * 10 + (byte_val c - 48)) = false)
    by (apply Z.ltb_ge; lia).
  rewrite E2, E3. cbn [orb]. apply IH; auto; lia.
Qed.

Lemma digit_not_sign (c : ascii) :
  strconv.is_digit c = true ->
  Ascii.eqb c "+" = false /\ Ascii.eqb c "-" = false.
Proof.
  intros H. split.
  - destruct (Ascii.eqb_spec c "+") as [-> |]; [discriminate H | reflexivity].
  - destruct (Ascii.eqb_spec c "-") as [-> |]; [discriminate H | reflexivity].
Qed.

(** What [Itoa] writes: a minus sign for a negative number, then the digits
    of its magnitude. *)
Lemma Itoa_shape (p : Z) :
  exists ds,
    strconv.Itoa p = (if p <? 0 then String "-" ds else ds)
    /\ ds <> ""
    /\ all_bytes strconv.is_digit ds = true
    /\ digits_val ds 0 = Z.abs p.
Proof.
  unfold strconv.Itoa, strconv.FormatInt.
  destruct (formatBits_digits (Z.to_nat (Z.log2 (Z.abs p))) (Z.abs p) "")
    as (ds & Hf & Hne & Hds & Hv).
  { rewrite Nat2Z.inj_succ, Z2Nat.id by apply Z.log2_nonneg.
    destruct (Z.eq_dec (Z.abs p) 0) as [E | E].
    - rewrite E. simpl. lia.
    - pose proof (Z.log2_spec (Z.abs p)). lia. }
  exists ds. cbv zeta. rewrite Hf, string_app_empty. auto.
Qed.

Lemma ParseInt_Itoa (p : Z) :
  minInt64 <= p <= maxInt64 -> strconv.ParseInt (strconv.Itoa p) = inr p.
Proof.
  unfold minInt64, maxInt64. intros Hp.
  destruct (Itoa_shape p) as (ds & -> & Hne & Hds & Hv).
  assert (Hu : strconv.ParseUint ds = inr (Z.abs p)).
  { destruct ds as [|c ds]; [congruence|].
    unfold strconv.ParseUint. rewrite <- Hv.
    apply ParseUint_loop_digits; auto; [lia|].
    rewrite Hv. unfold maxUint64. lia. }
  unfold strconv.ParseInt.
  destruct (Z.ltb_spec p 0) as [Hneg | Hpos].
  - change (Ascii.eqb "-" "-") with true. change (Ascii.eqb "-" "+") with false.
    cbv zeta. cbn [orb negb andb]. rewrite Hu.
    assert (E : (2 ^ 63 <? Z.abs p) = false) by (apply Z.ltb_ge; lia).
    rewrite E. f_equal. lia.
  - destruct ds as [|c ds]; [congruence|].
    cbn [all_bytes] in Hds. apply andb_true_iff in Hds.
    destruct Hds as [Hc Hds].
    destruct (digit_not_sign c Hc) as [-> ->].
    cbv zeta. cbn [orb negb andb]. rewrite Hu.
    assert (E : (2 ^ 63 <=? Z.abs p) = false) by (apply Z.leb_gt; lia).
    rewrite E. f_equal. lia.
Qed.

(** ** Scanning ASCII input *)

Lemma DecodeRune_ascii (c : ascii) (s : string) :
  is_ascii c = true -> utf8.DecodeRune c s = (byte_val c, s).
Proof.
  unfold is_ascii, utf8.DecodeRune. intros H. cbv zeta. now rewrite H.
Qed.

Lemma EncodeRune_ascii (c : ascii) (tail : string) :
  is_ascii c = true -> utf8.EncodeRune (byte_val c) tail = String c tail.
Proof.
  unfold is_ascii, utf8.EncodeRune, utf8.in_range. intros H.
  apply Z.ltb_lt in H. pose proof (byte_val_range c) as Hr.
  assert (E : (0 <=? byte_val c) && (byte_val c <=? 127) = true).
  { apply andb_true_iff. split; apply Z.leb_le; lia. }
  change 0x7F with 127. rewrite E. now rewrite byte_of_val.
Qed.

Lemma runes_ascii (s : string) :
  all_bytes is_ascii s = true ->
  fmt.runes s = map byte_val (list_ascii_of_string s).
Proof.
  unfold fmt.runes.
  induction s as [|c s IH]; simpl; intros H; [reflexivity|].
  apply andb_true_iff in H. destruct H as [Hc Hs].
  rewrite (DecodeRune_ascii c s Hc). now rewrite IH.
Qed.

Lemma SkipSpace_at_word (r : Z) (inp : list Z) :
  fmt.isSpace r = false -> fmt.SkipSpace (r :: inp) = fmt.ScanOk tt (r :: inp).
Proof.
  intros H. cbn [fmt.SkipSpace].
  destruct (Z.eqb_spec r 13) as [-> |]; [discriminate H|].
  destruct (Z.eqb_spec r 10) as [-> |]; [discriminate H|].
  cbn [andb]. now rewrite H.
Qed.

(** A run of ASCII bytes that [ok] admits is read whole, up to where the
    input ends or goes on with something else. *)
Lemma accept_all_run (ok : Z -> bool) (s : string) :
  forall buf rest,
    all_bytes is_ascii s = true ->
    all_bytes (fun c => ok (byte_val c)) s = true ->
    stops ok rest ->
    fmt.accept_all ok buf (map byte_val (list_ascii_of_string s) ++ rest)
    = fmt.ScanOk (buf ++ s) rest.
Proof.
  induction s as [|c s IH]; intros buf rest Ha Hok Hrest.
  - simpl. rewrite string_app_empty.
    destruct rest as [|r rest]; [reflexivity|].
    simpl in *. now rewrite Hrest.
  - cbn [all_bytes] in Ha, Hok.
    apply andb_true_iff in Ha. destruct Ha as [Hc Ha].
    apply andb_true_iff in Hok. destruct Hok as [Hokc Hok].
    simpl. rewrite Hokc, (EncodeRune_ascii c "" Hc), IH by assumption.
    now rewrite string_app_assoc.
Qed.

Lemma all_bytes_impl (P Q : ascii -> bool) (s : string) :
  (forall c, P c = true -> Q c = true) ->
  all_bytes P s = true -> all_bytes Q s = true.
Proof.
  intros HPQ. induction s as [|c s IH]; simpl; [reflexivity|].
  rewrite !andb_true_iff. intros [Hc Hs]. auto.
Qed.

Lemma digit_is_ascii (c : ascii) : strconv.is_digit c = true -> is_ascii c = true.
Proof.
  rewrite is_digit_spec. unfold is_ascii. intros H. apply Z.ltb_lt. lia.
Qed.

Lemma digit_is_fmt_digit (c : ascii) :
  strconv.is_digit c = true -> fmt.digits (byte_val c) = true.
Proof. unfold strconv.is_digit, fmt.digits. now intros ->. Qed.

Lemma isSpace_graphic (r : Z) : 33 <= r <= 126 -> fmt.isSpace r = false.
Proof.
  intros H. unfold fmt.isSpace, utf8.in_range.
  repeat match goal with
         | |- context [?a <=? ?b] =>
             destruct (Z.leb_spec a b); try lia; cbn [andb orb]
         | |- context [?a =? ?b] =>
             destruct (Z.eqb_spec a b); try lia; cbn [andb orb]
         end;
    reflexivity.
Qed.

Lemma digit_not_space (c : ascii) :
  strconv.is_digit c = true -> fmt.isSpace (byte_val c) = false.
Proof. rewrite is_digit_spec. intros H. apply isSpace_graphic. lia. Qed.

Lemma scanNumber_digits (buf ds : string) (rest : list Z) :
  ds <> "" ->
  all_bytes strconv.is_digit ds = true ->
  stops fmt.digits rest ->
  fmt.scanNumber buf (map byte_val (list_ascii_of_string ds) ++ rest)%list
  = fmt.ScanOk (buf ++ ds) rest.
Proof.
  intros Hne Hds Hrest. destruct ds as [|c ds]; [congruence|].
  cbn [all_bytes] in Hds. apply andb_true_iff in Hds. destruct Hds as [Hc Hds].
  unfold fmt.scanNumber, fmt.bind, fmt.notEOF, fmt.accept. simpl.
  rewrite (digit_is_fmt_digit c Hc). cbn [fst snd].
  rewrite (EncodeRune_ascii c "" (digit_is_ascii c Hc)).
  rewrite accept_all_run; auto.
  - now rewrite string_app_assoc.
  - exact (all_bytes_impl _ _ ds digit_is_ascii Hds).
  - exact (all_bytes_impl _ _ ds digit_is_fmt_digit Hds).
Qed.

(** [%d] reads back what [Itoa] wrote. *)
Lemma scanInt_Itoa (p : Z) (rest : list Z) :
  minInt64 <= p <= maxInt64 ->
  stops fmt.digits rest ->
  let inp :=
    (map byte_val (list_ascii_of_string (strconv.Itoa p)) ++ rest)%list in
  fmt.scanInt inp = fmt.ScanOk p rest
  /\ fmt.SkipSpace inp = fmt.ScanOk tt inp.
Proof.
  intros Hp Hrest inp. subst inp. pose proof (ParseInt_Itoa p Hp) as Hparse.
  destruct (Itoa_shape p) as (ds & HI & Hne & Hds & Hv).
  rewrite HI in *. clear HI.
  destruct (p <? 0).
  - assert (Hsk : forall inp, fmt.SkipSpace (45 :: inp) = fmt.ScanOk tt (45 :: inp))
      by (intros; now apply SkipSpace_at_word).
    simpl. split; [|apply Hsk].
    unfold fmt.scanInt, fmt.bind. rewrite Hsk.
    cbn [fmt.notEOF fmt.accept]. change (fmt.sign 45) with true.
    cbn iota. cbn [snd].
    change ("" ++ utf8.EncodeRune 45 "") with "-".
    rewrite scanNumber_digits by assumption.
    change ("-" ++ ds) with (String "-" ds). now rewrite Hparse.
  - destruct ds as [|c ds]; [congruence|].
    pose proof Hds as Hds'.
    cbn [all_bytes] in Hds'. apply andb_true_iff in Hds'. destruct Hds' as [Hc _].
    assert (Hsk : forall inp, fmt.SkipSpace (byte_val c :: inp)
                              = fmt.ScanOk tt (byte_val c :: inp))
      by (intros; apply SkipSpace_at_word; now apply digit_not_space).
    assert (Hsign : fmt.sign (byte_val c) = false).
    { apply is_digit_spec in Hc. unfold fmt.sign.
      destruct (Z.eqb_spec (byte_val c) 43), (Z.eqb_spec (byte_val c) 45);
        try lia; reflexivity. }
    split; [|apply Hsk].
    unfold fmt.scanInt, fmt.bind.
    change (map byte_val (list_ascii_of_string (String c ds)) ++ rest)%list
      with (byte_val c :: map byte_val (list_ascii_of_string ds) ++ rest)%list.
    rewrite Hsk. cbn [fmt.notEOF fmt.accept]. rewrite Hsign. cbn [snd].
    change (byte_val c :: map byte_val (list_ascii_of_string ds) ++ rest)%list
      with (map byte_val (list_ascii_of_string (String c ds)) ++ rest)%list.
    rewrite scanNumber_digits by assumption.
    change ("" ++ String c ds) with (String c ds). now rewrite Hparse.
Qed.

Lemma EncodeRune_tail (r : Z) (tail : string) :
  utf8.EncodeRune r tail = utf8.EncodeRune r "" ++ tail.
Proof.
  unfold utf8.EncodeRune.
  repeat match goal with
         | |- context [if ?b then _ else _] => destruct b
         end; reflexivity.
Qed.

Lemma accept_all_word (fuel : nat) :
  forall s buf,
    word_fuel fuel s = true ->
    fmt.accept_all fmt.notSpace buf (fmt.runes_fuel fuel s)
    = fmt.ScanOk (buf ++ s) [].
Proof.
  induction fuel as [|fuel IH]; intros s buf H.
  - destruct s; [|discriminate H]. simpl. now rewrite string_app_empty.
  - destruct s as [|c0 s1]; [simpl; now rewrite string_app_empty|].
    cbn [word_fuel fmt.runes_fuel] in *.
    destruct (utf8.DecodeRune c0 s1) as [r rest].
    apply andb_true_iff in H. destruct H as [H Hrest].
    apply andb_true_iff in H. destruct H as [Hr Henc].
    apply String.eqb_eq in Henc.
    cbn [fmt.accept_all]. rewrite Hr, (IH rest _ Hrest).
    now rewrite string_app_assoc, <- EncodeRune_tail, Henc.
Qed.

(** [%s] reads a word that ends the input. *)
Lemma convertString_word (e : string) :
  is_word e ->
  fmt.skip_blanks (fmt.runes e) = fmt.runes e
  /\ fmt.SkipSpace (fmt.runes e) = fmt.ScanOk tt (fmt.runes e)
  /\ fmt.convertString (fmt.runes e) = fmt.ScanOk e [].
Proof.
  intros [Hne Hw].
  pose proof (accept_all_word (String.length e) e "" Hw) as Hall.
  fold (fmt.runes e) in Hall. change ("" ++ e) with e in Hall.
  assert (Hfirst : exists r inp, fmt.runes e = r :: inp /\ fmt.isSpace r = false).
  { destruct e as [|c e]; [congruence|].
    unfold fmt.runes. cbn [String.length word_fuel fmt.runes_fuel] in *.
    destruct (utf8.DecodeRune c e) as [r rest].
    apply andb_true_iff in Hw. destruct Hw as [Hw _].
    apply andb_true_iff in Hw. destruct Hw as [Hr _].
    apply negb_true_iff in Hr. eauto. }
  destruct Hfirst as (r & inp & Erunes & Hr).
  rewrite Erunes in *.
  pose proof (SkipSpace_at_word r inp Hr) as Hsk.
  split; [|split; [exact Hsk|]].
  - simpl. now rewrite Hr.
  - unfold fmt.convertString, fmt.bind. rewrite Hsk.
    cbn [fmt.notEOF]. now rewrite Hsk.
Qed.

Lemma runes_app_ascii (a b : string) :
  all_bytes is_ascii a = true ->
  fmt.runes (a ++ b)
  = (map byte_val (list_ascii_of_string a) ++ fmt.runes b)%list.
Proof.
  unfold fmt.runes.
  induction a as [|c a IH]; simpl; intros H; [reflexivity|].
  apply andb_true_iff in H. destruct H as [Hc Ha].
  rewrite (DecodeRune_ascii c (a ++ b) Hc). now rewrite IH.
Qed.

Lemma Itoa_ascii (p : Z) : all_bytes is_ascii (strconv.Itoa p) = true.
Proof.
  destruct (Itoa_shape p) as (ds & -> & _ & Hds & _).
  pose proof (all_bytes_impl _ _ ds digit_is_ascii Hds) as H.
  destruct (p <? 0); [simpl; now rewrite H | exact H].
Qed.

(** ** [Sscanf] with ["%d %s"] *)

(** An integer, one space and a word are read back as they were written. *)
Lemma Sscanf_Itoa_word (p : Z) (e : string) (a0 : Z) (a1 : string) :
  minInt64 <= p <= maxInt64 ->
  is_word e ->
  fmt.Sscanf_d_s (strconv.Itoa p ++ " " ++ e) a0 a1 = (2%nat, None, (p, e)).
Proof.
  intros Hp He. unfold fmt.Sscanf_d_s.
  rewrite (runes_app_ascii (strconv.Itoa p)) by apply Itoa_ascii.
  rewrite (runes_app_ascii " " e) by reflexivity.
  change (map byte_val (list_ascii_of_string " ") ++ fmt.runes e)%list
    with (32 :: fmt.runes e).
  destruct (scanInt_Itoa p (32 :: fmt.runes e) Hp) as [Hint Hskip];
    [reflexivity|].
  unfold fmt.bind at 1. rewrite Hskip, Hint.
  destruct (convertString_word e He) as (Hbl & Hsk & Hconv).
  unfold fmt.bind, fmt.advance_space.
  change (fmt.isSpace 32) with true. change (32 =? 10) with false.
  cbn [negb]. rewrite Hbl, Hsk, Hconv. reflexivity.
Qed.

(** An integer alone is read, and the word is missed. *)
Lemma Sscanf_Itoa_alone (p : Z) (a0 : Z) (a1 : string) :
  minInt64 <= p <= maxInt64 ->
  exists msg,
    fmt.Sscanf_d_s (strconv.Itoa p) a0 a1 = (1%nat, Some msg, (p, a1)).
Proof.
  intros Hp. unfold fmt.Sscanf_d_s.
  rewrite runes_ascii by apply Itoa_ascii.
  destruct (scanInt_Itoa p [] Hp) as [Hint Hskip]; [exact I|].
  rewrite app_nil_r in Hint, Hskip.
  unfold fmt.bind at 1. rewrite Hskip, Hint. eexists. reflexivity.
Qed.

Lemma accept_all_buf (ok : Z -> bool) (inp : list Z) :
  forall buf, exists more rest,
    fmt.accept_all ok buf inp = fmt.ScanOk (buf ++ more) rest.
Proof.
  induction inp as [|r inp IH]; intros buf; simpl.
  - exists "", []. now rewrite string_app_empty.
  - destruct (ok r).
    + destruct (IH (buf ++ utf8.EncodeRune r "")) as (more & rest & ->).
      exists (utf8.EncodeRune r "" ++ more), rest.
      now rewrite string_app_assoc.
    + exists "", (r :: inp). now rewrite string_app_empty.
Qed.

(** Without a number in front nothing is read. *)
Lemma Sscanf_lacks_number (v : string) (a0 : Z) (a1 : string) :
  lacks_number v ->
  exists msg, fmt.Sscanf_d_s v a0 a1 = (0%nat, Some msg, (a0, a1)).
Proof.
  destruct v as [|c v]; [intros _; eexists; reflexivity|].
  intros (Ha & Hsp & Hsg & Hd).
  unfold fmt.Sscanf_d_s, fmt.runes.
  cbn [String.length fmt.runes_fuel]. rewrite (DecodeRune_ascii c v Ha).
  fold (fmt.runes v).
  unfold fmt.bind at 1. rewrite (SkipSpace_at_word _ _ Hsp).
  unfold fmt.scanInt. unfold fmt.bind at 1. rewrite (SkipSpace_at_word _ _ Hsp).
  unfold fmt.bind at 1. cbn [fmt.notEOF].
  unfold fmt.bind at 1. cbn [fmt.accept]. rewrite Hsg. cbn [snd].
  unfold fmt.bind at 1. unfold fmt.scanNumber.
  unfold fmt.bind at 1. cbn [fmt.notEOF].
  unfold fmt.bind at 1. cbn [fmt.accept].
  destruct (fmt.digits (byte_val c)); cbn [fst snd];
    [|eexists; reflexivity].
  rewrite (EncodeRune_ascii c "" Ha).
  destruct (accept_all_buf fmt.digits (fmt.runes v) ("" ++ String c ""))
    as (more & rest & ->).
  change (("" ++ String c "") ++ more) with (String c more).
  assert (Hparse : strconv.ParseInt (String c more) = inl strconv.ErrSyntax).
  { unfold strconv.ParseInt.
    assert (E1 : Ascii.eqb c "-" = false).
    { destruct (Ascii.eqb_spec c "-") as [-> |]; [discriminate Hsg | reflexivity]. }
    assert (E2 : Ascii.eqb c "+" = false).
    { destruct (Ascii.eqb_spec c "+") as [-> |]; [discriminate Hsg | reflexivity]. }
    rewrite E1, E2. cbn [orb].
    cbn [strconv.ParseUint strconv.ParseUint_loop]. now rewrite Hd. }
  rewrite Hparse. eexists; reflexivity.
Qed.

(** ** [buildRData] and the values [GetRecord] gives back *)

Lemma buildRData_MX (r : DynRecord) :
  Type_ r = "MX" ->
  buildRData r
  = (let '(_, _, (preference, exchange)) := fmt.Sscanf_d_s (Value r) 0 "" in
     (mkDataBlock "" "" "" preference exchange "" "" "", None)).
Proof. intros H. unfold buildRData. rewrite H. reflexivity. Qed.

Lemma plain_type_round_trip (r record : DynRecord) (rec : RecordResponse.t) :
  let d := RecordResponse.Data rec in
  In (Type_ r) plain_types ->
  RecordResponse.RecordType d = Type_ r ->
  RecordResponse.RData d = fst (buildRData r) ->
  snd (buildRData r) = None
  /\ fst (GetRecord_fill rec record) = None
  /\ Value (snd (GetRecord_fill rec record)) = Value r.
Proof.
  intros d Ht HT HR. unfold GetRecord_fill. fold d. rewrite HT, HR.
  unfold buildRData. unfold plain_types in Ht. simpl in Ht.
  decompose [or] Ht; try contradiction;
    match goal with E : _ = Type_ r |- _ => rewrite <- E end;
    repeat split; reflexivity.
Qed.

Lemma MX_round_trip (r record : DynRecord) (rec : RecordResponse.t)
  (p : Z) (e : string) :
  let d := RecordResponse.Data rec in
  Type_ r = "MX" ->
  minInt64 <= p <= maxInt64 ->
  is_word e ->
  Value r = strconv.Itoa p ++ " " ++ e ->
  RecordResponse.RecordType d = Type_ r ->
  RecordResponse.RData d = fst (buildRData r) ->
  buildRData r = (mkDataBlock "" "" "" p e "" "" "", None)
  /\ fst (GetRecord_fill rec record) = None
  /\ Value (snd (GetRecord_fill rec record)) = Value r.
Proof.
  intros d Ht Hp He Hv HT HR.
  assert (Hb : buildRData r = (mkDataBlock "" "" "" p e "" "" "", None)).
  { rewrite (buildRData_MX r Ht), Hv. now rewrite Sscanf_Itoa_word. }
  split; [exact Hb|].
  unfold GetRecord_fill. fold d. rewrite HT, HR, Hb, Ht, Hv. simpl. auto.
Qed.





(** ** Runs on the stub providers *)

(** The record shows up in the listing at the fourth request: three sleeps of
    250, 500 and 750 ms, and the child URL is passed over. *)
Example GetRecordID_eventually :
  GetRecordID nat
    (stub_Do 3 ["/REST/ARecord/example.com/www.example.com/4242/child";
                "/REST/ARecord/example.com/www.example.com/4242";
                "/REST/CNAMERecord/example.com/www.example.com/77"]
       RecordResponse.zero)
    stub_elapse 20 www_record (mkClient 0%nat [])
  = Some (None, set_ID "4242" www_record,
          mkClient 4%nat
            [EvDo "GET" "AllRecord/example.com/www.example.com" NoBody;
             EvSleep 250000000;
             EvDo "GET" "AllRecord/example.com/www.example.com" NoBody;
             EvSleep 500000000;
             EvDo "GET" "AllRecord/example.com/www.example.com" NoBody;
             EvSleep 750000000;
             EvDo "GET" "AllRecord/example.com/www.example.com" NoBody]).
Proof. vm_compute. reflexivity. Qed.

(** The record never shows up: twenty requests, 31000 ms of sleep, and the
    error. *)
Example GetRecordID_gives_up :
  option_map
    (fun res => (fst (fst res), List.length (requests (trace (snd res))),
                 sleeps (trace (snd res))))
    (GetRecordID nat (stub_Do 1000 [] RecordResponse.zero) stub_elapse 20
       www_record (mkClient 0%nat []))
  = Some (Some "Failed to find Dyn record id!", 20%nat,
          map (fun ms => ms * time_Millisecond)
            [250; 500; 750; 1000; 1250; 1500; 1750; 2000; 2000; 2000; 2000;
             2000; 2000; 2000; 2000; 2000; 2000; 2000; 2000]).
Proof. vm_compute. reflexivity. Qed.

(** Nineteen rounds are not enough for that run. *)
Example GetRecordID_needs_twenty :
  GetRecordID nat (stub_Do 1000 [] RecordResponse.zero) stub_elapse 19
    www_record (mkClient 0%nat [])
  = None.
Proof. vm_compute. reflexivity. Qed.

(** A failed request ends [GetRecordID] at once. *)
Example GetRecordID_transport_error :
  GetRecordID nat down_Do stub_elapse 20 www_record (mkClient 0%nat [])
  = Some (Some "Failed to find Dyn record id: connection refused", www_record,
          mkClient 1%nat
            [EvDo "GET" "AllRecord/example.com/www.example.com" NoBody]).
Proof. vm_compute. reflexivity. Qed.

(** MX values that are not written as [%d %s] writes them come back
    changed. *)
Example MX_values_normalised :
  fmt.Sscanf_d_s "010 mail.example.com" 0 "" = (2%nat, None, (10, "mail.example.com"))
  /\ fmt.Sscanf_d_s "+10  mail.example.com" 0 "" = (2%nat, None, (10, "mail.example.com"))
  /\ snd (fmt.Sscanf_d_s "10 mail.example.com extra" 0 "") = (10, "mail.example.com")
  /\ snd (fmt.Sscanf_d_s "99999999999999999999 mail.example.com" 0 "") = (0, "")
  /\ snd (fmt.Sscanf_d_s "mail.example.com" 0 "") = (0, "")
  /\ snd (fmt.Sscanf_d_s "10" 0 "") = (10, "").
Proof. vm_compute. repeat split; reflexivity. Qed.

Example TrimSuffix_name :
  strings.TrimSuffix "www.example.com" ".example.com" = "www"
  /\ strings.TrimSuffix "example.com" ".example.com" = "example.com"
  /\ strings.TrimPrefix "/REST/ARecord/z/f/12" "/REST/ARecord/z/f/" = "12"
  /\ strings.TrimPrefix "/REST/NSRecord/z/f/12" "/REST/ARecord/z/f/"
     = "/REST/NSRecord/z/f/12".
Proof. vm_compute. repeat split; reflexivity. Qed.

(** * Further properties of the facade *)

(** ** What the record looks like afterwards *)

Lemma CreateRecord_record (World : Type) (Do : DoType World)
  (record : DynRecord) (c : ConvenientClient World) :
  snd (fst (CreateRecord World Do record c)) = CreateRecord_FQDN record.
Proof.
  unfold CreateRecord, c_Do.
  destruct (buildRData (CreateRecord_FQDN record)) as [rdata [e|]];
    [reflexivity|].
  now destruct (Do OutNil _ _ _ _) as [[? ?] ?].
Qed.

Lemma UpdateRecord_record (World : Type) (Do : DoType World)
  (record : DynRecord) (c : ConvenientClient World) :
  snd (fst (UpdateRecord World Do record c)) = UpdateRecord_FQDN record.
Proof.
  unfold UpdateRecord, c_Do.
  destruct (buildRData (UpdateRecord_FQDN record)) as [rdata [e|]];
    [reflexivity|].
  now destruct (Do OutNil _ _ _ _) as [[? ?] ?].
Qed.

Lemma DeleteRecord_record (World : Type) (Do : DoType World)
  (record : DynRecord) (c : ConvenientClient World) :
  snd (fst (DeleteRecord World Do record c)) = DeleteRecord_FQDN record.
Proof.
  unfold DeleteRecord, c_Do.
  destruct (String.eqb (ID (DeleteRecord_FQDN record)) ""); [reflexivity|].
  now destruct (Do OutNil _ _ _ _) as [[? ?] ?].
Qed.

(** X1: [CreateRecord] leaves a given FQDN alone, takes the zone for a
    record with neither FQDN nor name, and ["{name}.{zone}"] for one with a
    name only; whether its request succeeds or not, nothing else of the
    record changes, so the ID is not filled in. *)
Theorem CreateRecord_FQDN_derivation (World : Type) (Do : DoType World)
  (record : DynRecord) (c : ConvenientClient World) :
  let record' := snd (fst (CreateRecord World Do record c)) in
  (FQDN record <> "" -> record' = record)
  /\ (FQDN record = "" -> Name record = "" -> FQDN record' = Zone record)
  /\ (FQDN record = "" -> Name record <> "" ->
      FQDN record' = Name record ++ "." ++ Zone record)
  /\ record' = set_FQDN (FQDN record') record.
Proof.
  intros record'. subst record'. rewrite CreateRecord_record.
  unfold CreateRecord_FQDN. destruct record as [i z n v t f l]. simpl.
  repeat split.
  - intros H. now rewrite (string_eqb_neq f H).
  - now intros -> ->.
  - intros -> H. now rewrite (string_eqb_neq n H).
  - destruct (String.eqb f "" && String.eqb n ""); [reflexivity|].
    destruct (String.eqb f ""); reflexivity.
Qed.

Lemma CreateRecord_FQDN_derivation_witness :
  FQDN (snd (fst (CreateRecord nat (stub_Do 0 [] RecordResponse.zero)
                    (set_FQDN "" www_record) (mkClient 0%nat []))))
  = "www" ++ "." ++ "example.com".
Proof.
  apply (proj1 (proj2 (proj2 (CreateRecord_FQDN_derivation nat
                                (stub_Do 0 [] RecordResponse.zero)
                                (set_FQDN "" www_record)
                                (mkClient 0%nat []))))).
  - reflexivity.
  - discriminate.
Defined.

(** ** Requests that are not made *)

Lemma FQDN_keeps_type (record : DynRecord) :
  Type_ (CreateRecord_FQDN record) = Type_ record
  /\ Type_ (UpdateRecord_FQDN record) = Type_ record.
Proof.
  unfold CreateRecord_FQDN, UpdateRecord_FQDN.
  destruct (String.eqb (FQDN record) "" && String.eqb (Name record) "");
    destruct (String.eqb (FQDN record) ""); now split.
Qed.

(** X2: with a record type outside the supported ones, [CreateRecord] and
    [UpdateRecord] return the wrapped error of [buildRData] and make no
    request; the FQDN has been derived all the same. *)
Theorem invalid_type_sends_nothing (World : Type) (Do : DoType World)
  (record : DynRecord) (c : ConvenientClient World) :
  ~ In (Type_ record) supported_types ->
  CreateRecord World Do record c
  = (Some ("Failed to create Dyn RData: Invalid Dyn record type: "
           ++ Type_ record),
     CreateRecord_FQDN record, c)
  /\ UpdateRecord World Do record c
     = (Some ("Failed to create Dyn RData: Invalid Dyn record type: "
              ++ Type_ record),
        UpdateRecord_FQDN record, c).
Proof.
  intros H. destruct (FQDN_keeps_type record) as [Hc Hu].
  unfold CreateRecord, UpdateRecord.
  rewrite (buildRData_unsupported (CreateRecord_FQDN record))
    by (now rewrite Hc).
  rewrite (buildRData_unsupported (UpdateRecord_FQDN record))
    by (now rewrite Hu).
  now rewrite Hc, Hu.
Qed.

Lemma invalid_type_sends_nothing_witness :
  CreateRecord nat (stub_Do 0 [] RecordResponse.zero)
    (set_Type "PTR" www_record) (mkClient 0%nat [])
  = (Some ("Failed to create Dyn RData: Invalid Dyn record type: " ++ "PTR"),
     CreateRecord_FQDN (set_Type "PTR" www_record), mkClient 0%nat [])
  /\ UpdateRecord nat (stub_Do 0 [] RecordResponse.zero)
       (set_Type "PTR" www_record) (mkClient 0%nat [])
     = (Some ("Failed to create Dyn RData: Invalid Dyn record type: " ++ "PTR"),
        UpdateRecord_FQDN (set_Type "PTR" www_record), mkClient 0%nat []).
Proof.
  apply (invalid_type_sends_nothing nat (stub_Do 0 [] RecordResponse.zero)
           (set_Type "PTR" www_record) (mkClient 0%nat [])).
  simpl. intuition discriminate.
Defined.

(** X3: [DeleteRecord] does not look at the record type: with an ID at
    hand it makes one [DELETE] request for
    ["{type}Record/{zone}/{fqdn}/{id}"] without a body, whatever the type,
    and returns the error of that request as it is. *)
Theorem DeleteRecord_any_type (World : Type) (Do : DoType World)
  (record : DynRecord) (c : ConvenientClient World) :
  ID record <> "" ->
  let record' := DeleteRecord_FQDN record in
  let url := Type_ record ++ "Record/" ++ Zone record ++ "/" ++ FQDN record'
             ++ "/" ++ ID record in
  DeleteRecord World Do record c
  = (fst (fst (Do OutNil "DELETE" url NoBody (world c))), record',
     mkClient (snd (Do OutNil "DELETE" url NoBody (world c)))
       (trace c ++ [EvDo "DELETE" url NoBody])).
Proof.
  intros H record' url. unfold DeleteRecord, c_Do. fold record'.
  assert (E : ID record' = ID record /\ Type_ record' = Type_ record
              /\ Zone record' = Zone record).
  { unfold record', DeleteRecord_FQDN.
    destruct (String.eqb (FQDN record) ""); auto. }
  destruct E as (-> & -> & ->). rewrite (string_eqb_neq _ H). fold url.
  now destruct (Do OutNil "DELETE" url NoBody (world c)) as [[? ?] ?].
Qed.

Lemma DeleteRecord_any_type_witness :
  DeleteRecord nat down_Do (set_Type "PTR" apex_record) (mkClient 0%nat [])
  = (Some "connection refused", set_FQDN ".example.com" (set_Type "PTR" apex_record),
     mkClient 1%nat
       [EvDo "DELETE" "PTRRecord/example.com/.example.com/123" NoBody]).
Proof.
  apply (DeleteRecord_any_type nat down_Do (set_Type "PTR" apex_record)
           (mkClient 0%nat [])).
  discriminate.
Defined.

(** X4: [PublishZone], [CreateRecord], [UpdateRecord], [DeleteRecord] and
    [GetRecord] make at most one request each and never sleep;
    [PublishZone] makes exactly one, a [PUT] of [{publish: true}] to
    ["Zone/{zone}"], and returns its error. *)
Theorem facade_at_most_one_request (World : Type) (Do : DoType World)
  (record : DynRecord) (zone : string) (c : ConvenientClient World) :
  (forall c',
      c' = snd (CreateRecord World Do record c)
      \/ c' = snd (UpdateRecord World Do record c)
      \/ c' = snd (DeleteRecord World Do record c)
      \/ c' = snd (GetRecord World Do record c)
      \/ c' = snd (PublishZone World Do zone c) ->
      exists evs,
        trace c' = (trace c ++ evs)%list
        /\ sleeps evs = []
        /\ (List.length (requests evs) <= 1)%nat)
  /\ PublishZone World Do zone c
     = (fst (fst (Do OutNil "PUT" ("Zone/" ++ zone)
                    (PublishBody (PublishZoneBlock.mk true)) (world c))),
        mkClient
          (snd (Do OutNil "PUT" ("Zone/" ++ zone)
                  (PublishBody (PublishZoneBlock.mk true)) (world c)))
          (trace c ++ [EvDo "PUT" ("Zone/" ++ zone)
                         (PublishBody (PublishZoneBlock.mk true))])).
Proof.
  assert (Hnone : exists evs : list Event,
             trace c = (trace c ++ evs)%list /\ sleeps evs = []
             /\ (List.length (requests evs) <= 1)%nat).
  { exists []. rewrite app_nil_r. simpl. auto. }
  split.
  - intros c' [-> | [-> | [-> | [-> | ->]]]].
    + unfold CreateRecord, c_Do.
      destruct (buildRData _) as [rdata [e|]]; [exact Hnone|].
      destruct (Do OutNil _ _ _ _) as [[? ?] ?]. simpl. eexists.
      split; [reflexivity|]. simpl. auto.
    + unfold UpdateRecord, c_Do.
      destruct (buildRData _) as [rdata [e|]]; [exact Hnone|].
      destruct (Do OutNil _ _ _ _) as [[? ?] ?]. simpl. eexists.
      split; [reflexivity|]. simpl. auto.
    + unfold DeleteRecord, c_Do.
      destruct (String.eqb _ ""); [exact Hnone|].
      destruct (Do OutNil _ _ _ _) as [[? ?] ?]. simpl. eexists.
      split; [reflexivity|]. simpl. auto.
    + unfold GetRecord, c_Do.
      destruct (Do OutRecord _ _ _ _) as [[[e|] rec] w]; simpl.
      * eexists. split; [reflexivity|]. simpl. auto.
      * destruct (GetRecord_fill rec record). simpl. eexists.
        split; [reflexivity|]. simpl. auto.
    + unfold PublishZone, c_Do.
      destruct (Do OutNil _ _ _ _) as [[? ?] ?]. simpl. eexists.
      split; [reflexivity|]. simpl. auto.
  - unfold PublishZone, c_Do.
    now destruct (Do OutNil _ _ _ _) as [[? ?] ?].
Qed.

Lemma facade_at_most_one_request_witness :
  exists evs,
    trace (snd (GetRecord nat (stub_Do 0 [] ptr_response) www_record
                  (mkClient 0%nat [])))
    = ([] ++ evs)%list
    /\ sleeps evs = []
    /\ (List.length (requests evs) <= 1)%nat.
Proof.
  apply (proj1 (facade_at_most_one_request nat (stub_Do 0 [] ptr_response)
                  www_record "example.com" (mkClient 0%nat []))).
  right. right. right. left. reflexivity.
Defined.

(** ** [GetRecord] *)

Lemma string_length_app (a b : string) :
  String.length (a ++ b) = (String.length a + String.length b)%nat.
Proof. induction a; simpl; congruence. Qed.

Lemma slice_to_app (a b : string) :
  strings.slice_to (String.length a) (a ++ b) = a.
Proof. induction a; simpl; [now destruct b | congruence]. Qed.

Lemma TrimSuffix_app (a b : string) : strings.TrimSuffix (a ++ b) b = a.
Proof.
  unfold strings.TrimSuffix, strings.HasSuffix.
  rewrite string_length_app.
  replace (String.length a + String.length b - String.length b)%nat
    with (String.length a) by lia.
  rewrite slice_from_app, slice_to_app, String.eqb_refl.
  assert (E : (String.length b <=? String.length a + String.length b)%nat = true)
    by (apply Nat.leb_le; lia).
  now rewrite E.
Qed.

Lemma TrimSuffix_longer (s suffix : string) :
  (String.length s < String.length suffix)%nat ->
  strings.TrimSuffix s suffix = s.
Proof.
  intros H. unfold strings.TrimSuffix, strings.HasSuffix.
  assert (E : (String.length suffix <=? String.length s)%nat = false)
    by (apply Nat.leb_gt; lia).
  now rewrite E.
Qed.

(** The fields [GetRecord] takes from a response, whatever its record
    type. *)
Lemma GetRecord_fill_fields (rec : RecordResponse.t) (record : DynRecord) :
  let d := RecordResponse.Data rec in
  let record' := snd (GetRecord_fill rec record) in
  ID record' = ID record
  /\ Zone record' = RecordResponse.Zone d
  /\ FQDN record' = RecordResponse.FQDN d
  /\ Name record'
     = strings.TrimSuffix (RecordResponse.FQDN d) ("." ++ RecordResponse.Zone d)
  /\ Type_ record' = RecordResponse.RecordType d
  /\ TTL record' = strconv.Itoa (RecordResponse.TTL d).
Proof.
  intros d record'. subst record'. unfold GetRecord_fill. fold d.
  repeat match goal with
         | |- context [if ?b then _ else _] => destruct b
         end; simpl; repeat split; reflexivity.
Qed.

Lemma GetRecord_ok (World : Type) (Do : DoType World) (record : DynRecord)
  (c : ConvenientClient World) (rec : RecordResponse.t) (w : World) :
  Do OutRecord "GET"
    (Type_ record ++ "Record/" ++ Zone record ++ "/" ++ FQDN record ++ "/"
     ++ ID record) NoBody (world c) = (None, rec, w) ->
  snd (fst (GetRecord World Do record c)) = snd (GetRecord_fill rec record).
Proof.
  intros H. unfold GetRecord, c_Do. rewrite H.
  now destruct (GetRecord_fill rec record).
Qed.

(** X5: [GetRecord] never changes the ID; and when its request fails it
    returns that error as it is and leaves the whole record alone. *)
Theorem GetRecord_failed_request (World : Type) (Do : DoType World)
  (record : DynRecord) (c : ConvenientClient World) :
  let url := Type_ record ++ "Record/" ++ Zone record ++ "/" ++ FQDN record
             ++ "/" ++ ID record in
  ID (snd (fst (GetRecord World Do record c))) = ID record
  /\ (forall e rec w,
        Do OutRecord "GET" url NoBody (world c) = (Some e, rec, w) ->
        GetRecord World Do record c
        = (Some e, record, mkClient w (trace c ++ [EvDo "GET" url NoBody]))).
Proof.
  intros url. split.
  - unfold GetRecord, c_Do. fold url.
    destruct (Do OutRecord "GET" url NoBody (world c)) as [[[e|] rec] w];
      [reflexivity|].
    pose proof (GetRecord_fill_fields rec record) as [H _].
    now destruct (GetRecord_fill rec record).
  - intros e rec w H. unfold GetRecord, c_Do. fold url. now rewrite H.
Qed.

Lemma GetRecord_failed_request_witness :
  GetRecord nat down_Do (set_ID "4242" www_record) (mkClient 0%nat [])
  = (Some "connection refused", set_ID "4242" www_record,
     mkClient 1%nat
       [EvDo "GET" "ARecord/example.com/www.example.com/4242" NoBody]).
Proof.
  apply (proj2 (GetRecord_failed_request nat down_Do
                  (set_ID "4242" www_record) (mkClient 0%nat []))
           "connection refused" RecordResponse.zero 1%nat).
  reflexivity.
Defined.

(** X6: the name [GetRecord] gives a record undoes the FQDN derivation of
    [CreateRecord] for a named record: from a response with FQDN
    ["{name}.{zone}"] the name is [name].  For an apex record, whose FQDN
    is the zone, the name becomes the zone, not the empty string. *)
Theorem GetRecord_name (World : Type) (Do : DoType World) (record : DynRecord)
  (c : ConvenientClient World) (rec : RecordResponse.t) (w : World) :
  let url := Type_ record ++ "Record/" ++ Zone record ++ "/" ++ FQDN record
             ++ "/" ++ ID record in
  let d := RecordResponse.Data rec in
  let record' := snd (fst (GetRecord World Do record c)) in
  Do OutRecord "GET" url NoBody (world c) = (None, rec, w) ->
  (forall name,
      RecordResponse.FQDN d = name ++ "." ++ RecordResponse.Zone d ->
      Name record' = name)
  /\ (RecordResponse.FQDN d = RecordResponse.Zone d ->
      Name record' = RecordResponse.Zone d).
Proof.
  intros url d record' H. subst record'.
  rewrite (GetRecord_ok World Do record c rec w H).
  destruct (GetRecord_fill_fields rec record) as (_ & _ & _ & -> & _).
  fold d. split.
  - intros name ->. apply TrimSuffix_app.
  - intros ->. apply TrimSuffix_longer. simpl. lia.
Qed.

Lemma GetRecord_name_witness :
  Name (snd (fst (GetRecord nat
                    (stub_Do 0 []
                       (RecordResponse.mk
                          (RecordResponse.mkData "example.com" "example.com"
                             "A" 60 DataBlock_zero)))
                    apex_record (mkClient 0%nat []))))
  = "example.com".
Proof.
  apply (proj2 (GetRecord_name nat
                  (stub_Do 0 []
                     (RecordResponse.mk
                        (RecordResponse.mkData "example.com" "example.com"
                           "A" 60 DataBlock_zero)))
                  apex_record (mkClient 0%nat [])
                  (RecordResponse.mk
                     (RecordResponse.mkData "example.com" "example.com"
                        "A" 60 DataBlock_zero))
                  1%nat eq_refl)).
  reflexivity.
Defined.

(** X7: the TTL [GetRecord] stores is the response's number in decimal:
    [strconv.ParseInt] reads it back, whatever the record type. *)
Theorem GetRecord_TTL_decimal (World : Type) (Do : DoType World)
  (record : DynRecord) (c : ConvenientClient World) (rec : RecordResponse.t)
  (w : World) :
  let url := Type_ record ++ "Record/" ++ Zone record ++ "/" ++ FQDN record
             ++ "/" ++ ID record in
  let ttl := RecordResponse.TTL (RecordResponse.Data rec) in
  Do OutRecord "GET" url NoBody (world c) = (None, rec, w) ->
  minInt64 <= ttl <= maxInt64 ->
  strconv.ParseInt (TTL (snd (fst (GetRecord World Do record c)))) = inr ttl.
Proof.
  intros url ttl H Httl.
  rewrite (GetRecord_ok World Do record c rec w H).
  destruct (GetRecord_fill_fields rec record) as (_ & _ & _ & _ & _ & ->).
  now apply ParseInt_Itoa.
Qed.

Lemma GetRecord_TTL_decimal_witness :
  strconv.ParseInt
    (TTL (snd (fst (GetRecord nat (stub_Do 0 [] ptr_response) www_record
                      (mkClient 0%nat [])))))
  = inr 3600.
Proof.
  apply (GetRecord_TTL_decimal nat (stub_Do 0 [] ptr_response) www_record
           (mkClient 0%nat []) ptr_response 1%nat eq_refl).
  vm_compute. split; discriminate.
Defined.

(** ** Which listed URLs [GetRecordID] takes *)

Lemma HasPrefix_split (s p : string) :
  strings.HasPrefix s p = true ->
  s = p ++ strings.slice_from (String.length p) s.
Proof.
  revert s. induction p as [|a p IH]; intros s; simpl; [reflexivity|].
  destruct s as [|b s]; [discriminate|].
  rewrite andb_true_iff, Ascii.eqb_eq. intros [-> H].
  f_equal. now apply IH.
Qed.

(** X8: [GetRecordID] takes a listed URL in two cases only: it is the
    record's prefix ["/REST/{type}Record/{zone}/{fqdn}/"] followed by a
    non-empty ID without ["/"], or it lacks the prefix and is itself
    non-empty and without ["/"] -- then it is taken whole.  So a URL
    without the prefix that has a ["/"], such as another type's record URL,
    is never taken. *)
Theorem accepted_iff (record : DynRecord) (url : string) :
  let prefix := record_URL_prefix record in
  (accepted record url
   <-> (exists id, url = prefix ++ id /\ is_record_ID id)
       \/ (strings.HasPrefix url prefix = false /\ is_record_ID url))
  /\ (is_record_ID url ->
      GetRecordID_range record [url] "" = url)
  /\ (strings.HasPrefix url prefix = false ->
      In "/"%char (list_ascii_of_string url) ->
      forall finalID, GetRecordID_range record [url] finalID = finalID).
Proof.
  intros prefix.
  assert (Hiff : accepted record url
                 <-> (exists id, url = prefix ++ id /\ is_record_ID id)
                     \/ (strings.HasPrefix url prefix = false
                         /\ is_record_ID url)).
  { unfold accepted, strings.TrimPrefix. fold prefix.
    destruct (strings.HasPrefix url prefix) eqn:E.
    - split.
      + intros H. left. exists (strings.slice_from (String.length prefix) url).
        split; [now apply HasPrefix_split | exact H].
      + intros [(id & -> & Hid) | [H _]]; [|discriminate H].
        now rewrite slice_from_app.
    - split; [intros H; right; now split|].
      intros [(id & -> & _) | [_ H]]; [|exact H].
      now rewrite HasPrefix_app in E. }
  split; [exact Hiff|]. split.
  - intros Hid.
    assert (E : strings.HasPrefix url prefix = false).
    { destruct (strings.HasPrefix url prefix) eqn:E; [|reflexivity].
      apply HasPrefix_split in E. exfalso. apply (proj2 Hid).
      rewrite E. unfold prefix, record_URL_prefix. simpl. now left. }
    assert (Hacc : accepted record url) by (apply Hiff; right; now split).
    etransitivity;
      [apply (GetRecordID_range_last record [] [] url "" Hacc); constructor|].
    unfold strings.TrimPrefix. fold prefix. now rewrite E.
  - intros E Hslash finalID.
    apply GetRecordID_range_skip. constructor; [|constructor].
    intros Hacc. apply Hiff in Hacc.
    destruct Hacc as [(id & -> & _) | [_ [_ Hno]]]; [|now apply Hno].
    fold prefix in E. now rewrite HasPrefix_app in E.
Qed.

Lemma accepted_iff_witness :
  GetRecordID_range www_record ["4242"] "" = "4242"
  /\ GetRecordID_range www_record
       ["/REST/CNAMERecord/example.com/www.example.com/77"] "" = "".
Proof.
  split.
  - apply (proj1 (proj2 (accepted_iff www_record "4242"))).
    split; [discriminate|]. simpl. intuition discriminate.
  - apply (proj2 (proj2 (accepted_iff www_record
                           "/REST/CNAMERecord/example.com/www.example.com/77"))).
    + reflexivity.
    + simpl. tauto.
Defined.

(** ** More on the runs of [GetRecordID] *)

Lemma backoff_sum_short (n : nat) :
  (n <= 18)%nat -> sum_Z (map backoff_millis (seq 1 n)) <= 29000.
Proof.
  intros H.
  do 19 (destruct n as [|n]; [vm_compute; discriminate|]). lia.
Qed.

Section NeverListed.

Variable World : Type.
Variable Do : DoType World.
Variable elapse : Z -> World -> World.
Variable record : DynRecord.
Variable url : string.

(** The provider answers every listing request, and never with a URL that
    [GetRecordID] takes. *)
Hypothesis never_listed :
  forall w, exists records w',
    Do OutAllRecords "GET" url NoBody w = (None, records, w')
    /\ GetRecordID_range record (AllRecordsResponse.Data records) "" = "".

Lemma GetRecordID_for_never_listed (fuel : nat) :
  forall (N : nat) cum c exit c',
    (1 <= N)%nat ->
    250 * (Z.of_nat N - 1) <= cum ->
    GetRecordID_for World Do elapse fuel record url "" (Z.of_nat N) cum c
    = Some (exit, c') ->
    exit = LoopBreak ""
    /\ exists evs,
        trace c' = (trace c ++ EvDo "GET" url NoBody :: evs)%list
        /\ sleeps evs
           = map (fun n => backoff_millis n * time_Millisecond)
               (seq N (List.length (sleeps evs)))
        /\ requests evs
           = repeat ("GET", url, NoBody) (List.length (sleeps evs))
        /\ (List.length (sleeps evs) < fuel)%nat
        /\ DO_MAX_CUMULATIVE_WAIT_MILLIS
           <= cum + sum_Z (map backoff_millis
                             (seq N (List.length (sleeps evs)))).
Proof.
  induction fuel as [|fuel IH]; intros N cum c exit c' HN Hcum;
    [discriminate|].
  simpl. unfold c_Do.
  destruct (never_listed (world c)) as (records & w & -> & Hnone).
  rewrite Hnone. simpl.
  destruct (DO_MAX_CUMULATIVE_WAIT_MILLIS <=? cum) eqn:E.
  { intros [= <- <-]. split; [reflexivity|]. exists []. simpl.
    apply Z.leb_le in E. repeat split; auto; lia. }
  apply Z.leb_gt in E. unfold DO_MAX_CUMULATIVE_WAIT_MILLIS in *.
  rewrite sleepTime_of_backoff by lia.
  rewrite (wrap_int_small (Z.of_nat N + 1)) by (unfold minInt64, maxInt64; lia).
  replace (Z.of_nat N + 1) with (Z.of_nat (S N)) by lia.
  assert (Hb := backoff_millis_bounds N HN).
  rewrite wrap_int_small
    by (unfold minInt64, maxInt64, time_Millisecond; lia).
  intros H. apply IH in H; [|lia|lia].
  destruct H as (-> & evs & Ht & Hs & Hr & Hl & Hsum). simpl in Ht.
  split; [reflexivity|].
  exists (EvSleep (backoff_millis N * time_Millisecond)
            :: EvDo "GET" url NoBody :: evs).
  simpl. split; [rewrite Ht, <- !app_assoc; reflexivity|].
  split; [f_equal; exact Hs|]. split; [f_equal; exact Hr|].
  split; [lia|]. unfold sum_Z in *. lia.
Qed.

End NeverListed.

(** X9: when [GetRecordID] gives up, it has made exactly twenty listing
    requests and slept nineteen times, 250, 500, ..., 1750 ms and then
    twelve times 2000 ms: 31000 ms in all, one second beyond the cap.  This
    is what happens whenever every listing comes back without error and
    without a URL that qualifies. *)
Theorem GetRecordID_exhausts_budget (World : Type) (Do : DoType World)
  (elapse : Z -> World -> World) (fuel : nat) (record : DynRecord)
  (c : ConvenientClient World) :
  let url := "AllRecord/" ++ Zone record ++ "/" ++ FQDN record in
  (20 <= fuel)%nat ->
  (forall w, exists records w',
      Do OutAllRecords "GET" url NoBody w = (None, records, w')
      /\ GetRecordID_range record (AllRecordsResponse.Data records) "" = "") ->
  exists c' evs,
    GetRecordID World Do elapse fuel record c
    = Some (Some "Failed to find Dyn record id!", record, c')
    /\ trace c' = (trace c ++ evs)%list
    /\ requests evs = repeat ("GET", url, NoBody) 20
    /\ sleeps evs
       = map (fun ms => ms * time_Millisecond)
           [250; 500; 750; 1000; 1250; 1500; 1750; 2000; 2000; 2000; 2000;
            2000; 2000; 2000; 2000; 2000; 2000; 2000; 2000]
    /\ sum_Z (sleeps evs) = 31000 * time_Millisecond.
Proof.
  intros url Hfuel Hnever.
  destruct (GetRecordID_for_total World Do elapse 20 1 record url "" 0 c)
    as [[exit c'] H20]; [lia | simpl; lia | vm_compute; discriminate | lia |].
  assert (H : GetRecordID_for World Do elapse fuel record url "" 1 0 c
              = Some (exit, c')).
  { replace fuel with ((fuel - 20) + 20)%nat by lia.
    now apply GetRecordID_for_fuel_plus. }
  destruct (GetRecordID_for_never_listed World Do elapse record url Hnever
              20 1 0 c exit c')
    as (-> & evs & Ht & Hs & Hr & Hl & Hsum); [lia | simpl; lia | exact H20|].
  remember (List.length (sleeps evs)) as n eqn:En.
  assert (n = 19%nat) as ->.
  { destruct (Nat.le_gt_cases n 18) as [Hle | Hgt]; [|lia].
    pose proof (backoff_sum_short n Hle).
    unfold DO_MAX_CUMULATIVE_WAIT_MILLIS in Hsum. lia. }
  exists c', (EvDo "GET" url NoBody :: evs).
  split; [unfold GetRecordID; fold url; now rewrite H|].
  split; [exact Ht|]. simpl.
  split; [now rewrite Hr|]. rewrite Hs. split; reflexivity.
Qed.

Lemma GetRecordID_exhausts_budget_witness :
  exists c' evs,
    GetRecordID nat (stub_Do 0 [] RecordResponse.zero) stub_elapse 20
      www_record (mkClient 0%nat [])
    = Some (Some "Failed to find Dyn record id!", www_record, c')
    /\ trace c' = ([] ++ evs)%list
    /\ requests evs
       = repeat ("GET", "AllRecord/" ++ "example.com" ++ "/" ++ "www.example.com",
                 NoBody) 20
    /\ sleeps evs
       = map (fun ms => ms * time_Millisecond)
           [250; 500; 750; 1000; 1250; 1500; 1750; 2000; 2000; 2000; 2000;
            2000; 2000; 2000; 2000; 2000; 2000; 2000; 2000]
    /\ sum_Z (sleeps evs) = 31000 * time_Millisecond.
Proof.
  apply (GetRecordID_exhausts_budget nat (stub_Do 0 [] RecordResponse.zero)
           stub_elapse 20%nat www_record (mkClient 0%nat []) (le_n 20)).
  intros w. eexists. eexists. split; reflexivity.
Defined.

Lemma GetRecordID_return_cases (exit : LoopExit) (record : DynRecord) :
  match exit with
  | LoopReturn err => err <> None
  | LoopBreak finalID => finalID = "" \/ is_record_ID finalID
  end ->
  let res := GetRecordID_return exit record in
  (fst res = None /\ is_record_ID (ID (snd res))
   /\ snd res = set_ID (ID (snd res)) record)
  \/ (fst res <> None /\ snd res = record).
Proof.
  destruct exit as [err | finalID]; simpl.
  - intros H. right. now split.
  - destruct (String.eqb_spec finalID "") as [-> | Hne]; simpl.
    + intros _. right. split; [discriminate | reflexivity].
    + intros [H | H]; [contradiction|]. left. repeat split; auto; apply H.
Qed.

(** X10: [GetRecordID] changes nothing of the record but the ID, and that
    only when it returns without error, to an ID that is not empty and has
    no ["/"]; with an error the record is as it was.  All it ever sends are
    [GET] requests without a body for the one listing URL, one more than it
    sleeps. *)
Theorem GetRecordID_changes_only_ID (World : Type) (Do : DoType World)
  (elapse : Z -> World -> World) (fuel : nat) (record : DynRecord)
  (c : ConvenientClient World) :
  let url := "AllRecord/" ++ Zone record ++ "/" ++ FQDN record in
  (20 <= fuel)%nat ->
  exists err record' c' evs,
    GetRecordID World Do elapse fuel record c = Some (err, record', c')
    /\ ((err = None /\ is_record_ID (ID record')
         /\ record' = set_ID (ID record') record)
        \/ (err <> None /\ record' = record))
    /\ trace c' = (trace c ++ evs)%list
    /\ requests evs
       = repeat ("GET", url, NoBody) (S (List.length (sleeps evs))).
Proof.
  intros url Hfuel.
  destruct (GetRecordID_run World Do elapse fuel record c Hfuel)
    as (exit & c' & evs & Hloop & Hrun & Ht & Hs & Hr & Hl).
  exists (fst (GetRecordID_return exit record)),
    (snd (GetRecordID_return exit record)), c', (EvDo "GET" url NoBody :: evs).
  rewrite <- surjective_pairing.
  split; [exact Hrun|].
  split; [apply GetRecordID_return_cases;
          exact (GetRecordID_for_exit World Do elapse _ _ _ _ _ _ _ _ Hloop)|].
  split; [exact Ht|]. simpl. fold url in Hr. now rewrite Hr.
Qed.

Lemma GetRecordID_changes_only_ID_witness :
  exists err record' c' evs,
    GetRecordID nat (stub_Do 2 ["4242"] RecordResponse.zero) stub_elapse 20
      www_record (mkClient 0%nat [])
    = Some (err, record', c')
    /\ ((err = None /\ is_record_ID (ID record')
         /\ record' = set_ID (ID record') www_record)
        \/ (err <> None /\ record' = www_record))
    /\ trace c' = ([] ++ evs)%list
    /\ requests evs
       = repeat ("GET", "AllRecord/" ++ "example.com" ++ "/" ++ "www.example.com",
                 NoBody) (S (List.length (sleeps evs))).
Proof.
  exact (GetRecordID_changes_only_ID nat (stub_Do 2 ["4242"] RecordResponse.zero)
           stub_elapse 20%nat www_record (mkClient 0%nat []) (le_n 20)).
Defined.

(** X11: a failed listing request is not retried, in whichever round it
    happens: the loop is left right after it without a sleep, and
    [GetRecordID] returns the request's error wrapped, with the record as it
    was. *)
Theorem GetRecordID_request_failure (World : Type) (Do : DoType World)
  (elapse : Z -> World -> World) (fuel : nat) (record : DynRecord)
  (c : ConvenientClient World) (e : string) (records : AllRecordsResponse.t)
  (w : World) :
  (forall url finalID loopCount cum,
      Do OutAllRecords "GET" url NoBody (world c) = (Some e, records, w) ->
      GetRecordID_for World Do elapse (S fuel) record url finalID loopCount
        cum c
      = Some (LoopReturn (Some ("Failed to find Dyn record id: " ++ e)),
              mkClient w (trace c ++ [EvDo "GET" url NoBody]))
      /\ GetRecordID_return
           (LoopReturn (Some ("Failed to find Dyn record id: " ++ e))) record
         = (Some ("Failed to find Dyn record id: " ++ e), record))
  /\ (let url := "AllRecord/" ++ Zone record ++ "/" ++ FQDN record in
      Do OutAllRecords "GET" url NoBody (world c) = (Some e, records, w) ->
      GetRecordID World Do elapse (S fuel) record c
      = Some (Some ("Failed to find Dyn record id: " ++ e), record,
              mkClient w (trace c ++ [EvDo "GET" url NoBody]))).
Proof.
  split.
  - intros url finalID loopCount cum H. split; [|reflexivity].
    simpl. unfold c_Do. now rewrite H.
  - intros url H. unfold GetRecordID. fold url. simpl. unfold c_Do.
    now rewrite H.
Qed.

Lemma GetRecordID_request_failure_witness :
  GetRecordID nat down_Do stub_elapse 1 www_record (mkClient 0%nat [])
  = Some (Some ("Failed to find Dyn record id: " ++ "connection refused"),
          www_record,
          mkClient 1%nat
            [EvDo "GET" ("AllRecord/" ++ "example.com" ++ "/"
                         ++ "www.example.com") NoBody]).
Proof.
  exact (proj2 (GetRecordID_request_failure nat down_Do stub_elapse 0%nat
                  www_record (mkClient 0%nat []) "connection refused"
                  AllRecordsResponse.zero 1%nat) eq_refl).
Defined.

(** ** The methods one after another *)

Lemma DeleteRecord_FQDN_set_ID (id : string) (record : DynRecord) :
  DeleteRecord_FQDN (set_ID id record) = set_ID id (DeleteRecord_FQDN record).
Proof.
  unfold DeleteRecord_FQDN. simpl.
  now destruct (String.eqb (FQDN record) "").
Qed.

(** X12: a record whose ID [GetRecordID] has found passes the guard of
    [DeleteRecord]: the delete makes its one request, and the last segment
    of its path is that ID, which is not empty and holds no ["/"]. *)
Theorem GetRecordID_then_DeleteRecord (World : Type) (Do : DoType World)
  (elapse : Z -> World -> World) (fuel : nat) (record record' : DynRecord)
  (c c' c2 : ConvenientClient World) :
  GetRecordID World Do elapse fuel record c = Some (None, record', c') ->
  let url := Type_ record ++ "Record/" ++ Zone record ++ "/"
             ++ FQDN (DeleteRecord_FQDN record) ++ "/" ++ ID record' in
  is_record_ID (ID record')
  /\ DeleteRecord World Do record' c2
     = (fst (fst (Do OutNil "DELETE" url NoBody (world c2))),
        DeleteRecord_FQDN record',
        mkClient (snd (Do OutNil "DELETE" url NoBody (world c2)))
          (trace c2 ++ [EvDo "DELETE" url NoBody])).
Proof.
  unfold GetRecordID.
  destruct (GetRecordID_for World Do elapse fuel record _ "" 1 0 c)
    as [[exit c1]|] eqn:Hloop; [|discriminate].
  apply GetRecordID_for_exit in Hloop.
  intros [= E1 E2].
  destruct (GetRecordID_return_cases exit record Hloop)
    as [(He & Hid & Hrec) | (He & _)]; rewrite E1 in *; simpl in *;
    [|congruence].
  split; [exact Hid|].
  assert (Ht : Type_ record = Type_ record') by (now rewrite Hrec).
  assert (Hz : Zone record = Zone record') by (now rewrite Hrec).
  assert (Hf : FQDN (DeleteRecord_FQDN record)
               = FQDN (DeleteRecord_FQDN record'))
    by (now rewrite Hrec, DeleteRecord_FQDN_set_ID).
  rewrite Ht, Hz, Hf.
  exact (DeleteRecord_any_type World Do record' c2 (proj1 Hid)).
Qed.

Lemma GetRecordID_then_DeleteRecord_witness :
  is_record_ID "4242"
  /\ DeleteRecord nat (stub_Do 0 ["4242"] RecordResponse.zero)
       (set_ID "4242" www_record) (mkClient 1%nat [])
     = (None, set_ID "4242" www_record,
        mkClient 2%nat
          [EvDo "DELETE" "ARecord/example.com/www.example.com/4242" NoBody]).
Proof.
  apply (GetRecordID_then_DeleteRecord nat
           (stub_Do 0 ["4242"] RecordResponse.zero) stub_elapse 1%nat
           www_record (set_ID "4242" www_record) (mkClient 0%nat [])
           (mkClient 1%nat
              [EvDo "GET" "AllRecord/example.com/www.example.com" NoBody])
           (mkClient 1%nat [])).
  reflexivity.
Defined.

(** X13: once [CreateRecord] has settled a record's FQDN -- the record has
    an FQDN, a name or a zone -- [UpdateRecord] and [DeleteRecord] on the
    record it leaves keep that FQDN and change nothing: the apex record is
    then addressed by its zone in all three.  For a record with none of the
    three, [CreateRecord] leaves the FQDN empty and the other two make it
    ["."]. *)
Theorem CreateRecord_then_UpdateRecord (World : Type) (Do : DoType World)
  (record : DynRecord) (c c1 c2 : ConvenientClient World) :
  let record1 := snd (fst (CreateRecord World Do record c)) in
  (FQDN record <> "" \/ Name record <> "" \/ Zone record <> "" ->
   FQDN record1 <> ""
   /\ snd (fst (UpdateRecord World Do record1 c1)) = record1
   /\ snd (fst (DeleteRecord World Do record1 c2)) = record1)
  /\ (FQDN record = "" -> Name record = "" -> Zone record = "" ->
      FQDN record1 = ""
      /\ FQDN (snd (fst (UpdateRecord World Do record1 c1))) = "."
      /\ FQDN (snd (fst (DeleteRecord World Do record1 c2))) = ".").
Proof.
  intros record1. subst record1.
  rewrite CreateRecord_record, UpdateRecord_record, DeleteRecord_record.
  split.
  - intros H.
    assert (Hne : FQDN (CreateRecord_FQDN record) <> "").
    { unfold CreateRecord_FQDN.
      destruct (String.eqb_spec (FQDN record) "") as [Ef | Ef];
        [|simpl; exact Ef].
      destruct (String.eqb_spec (Name record) "") as [En | En]; simpl.
      - destruct H as [H | [H | H]]; congruence.
      - destruct (Name record); [congruence | discriminate]. }
    split; [exact Hne|].
    unfold UpdateRecord_FQDN, DeleteRecord_FQDN.
    now rewrite (string_eqb_neq _ Hne).
  - intros Hf Hn Hz. destruct record as [i z n v t f l].
    simpl in Hf, Hn, Hz. subst f n z. repeat split.
Qed.

Lemma CreateRecord_then_UpdateRecord_witness :
  FQDN (snd (fst (CreateRecord nat (stub_Do 0 [] RecordResponse.zero)
                    apex_record (mkClient 0%nat []))))
  <> ""
  /\ snd (fst (UpdateRecord nat (stub_Do 0 [] RecordResponse.zero)
                 (snd (fst (CreateRecord nat
                              (stub_Do 0 [] RecordResponse.zero)
                              apex_record (mkClient 0%nat []))))
                 (mkClient 1%nat [])))
     = set_FQDN "example.com" apex_record
  /\ snd (fst (DeleteRecord nat (stub_Do 0 [] RecordResponse.zero)
                 (snd (fst (CreateRecord nat
                              (stub_Do 0 [] RecordResponse.zero)
                              apex_record (mkClient 0%nat []))))
                 (mkClient 1%nat [])))
     = set_FQDN "example.com" apex_record.
Proof.
  apply (proj1 (CreateRecord_then_UpdateRecord nat
                  (stub_Do 0 [] RecordResponse.zero) apex_record
                  (mkClient 0%nat []) (mkClient 1%nat []) (mkClient 1%nat []))).
  right. right. discriminate.
Defined.

(** ** UTF-8: decoding and encoding *)

Lemma lor_add (a b n : Z) :
  0 <= n -> 0 <= b < 2 ^ n -> Z.lor (a * 2 ^ n) b = a * 2 ^ n + b.
Proof.
  intros Hn Hb.
  assert (E : Z.land (a * 2 ^ n) b = 0).
  { apply Z.bits_inj'. intros i Hi.
    rewrite Z.land_spec, Z.bits_0.
    destruct (Z.lt_ge_cases i n) as [Hlt | Hge].
    - now rewrite Z.mul_pow2_bits_low.
    - assert (Hbi : Z.testbit b i = false).
      { apply Z.testbit_false; [lia|].
        rewrite Z.div_small; [reflexivity|].
        split; [lia|]. apply Z.lt_le_trans with (2 ^ n); [lia|].
        apply Z.pow_le_mono_r; lia. }
      now rewrite Hbi, andb_false_r. }
  now rewrite <- (Z.lxor_lor _ _ E), (Z.add_nocarry_lxor _ _ E).
Qed.

Lemma land_low (x n : Z) : 0 <= n -> Z.land x (2 ^ n - 1) = x mod 2 ^ n.
Proof.
  intros Hn. rewrite <- Z.land_ones by lia. f_equal.
  rewrite Z.ones_equiv. lia.
Qed.

Lemma cont_mod (c : ascii) : utf8.cont c = byte_val c mod 64.
Proof. unfold utf8.cont. exact (land_low (byte_val c) 6 ltac:(lia)). Qed.

Lemma shiftl_mul (x n : Z) : 0 <= n -> Z.shiftl x n = x * 2 ^ n.
Proof. intros. now apply Z.shiftl_mul_pow2. Qed.

Lemma shiftr_div (x n : Z) : 0 <= n -> Z.shiftr x n = x / 2 ^ n.
Proof. intros. now apply Z.shiftr_div_pow2. Qed.

Lemma in_range_spec (lo hi b : Z) :
  utf8.in_range lo hi b = true <-> lo <= b <= hi.
Proof. unfold utf8.in_range. rewrite andb_true_iff, !Z.leb_le. tauto. Qed.

Lemma in_range_true (lo hi b : Z) : lo <= b <= hi -> utf8.in_range lo hi b = true.
Proof. apply in_range_spec. Qed.

Lemma in_range_false (lo hi b : Z) :
  b < lo \/ hi < b -> utf8.in_range lo hi b = false.
Proof.
  intros H. apply not_true_iff_false. rewrite in_range_spec. lia.
Qed.

Lemma is_cont_spec (c : ascii) :
  utf8.is_cont c = true <-> 0x80 <= byte_val c <= 0xBF.
Proof. apply in_range_spec. Qed.

Lemma land_1F (x : Z) : Z.land x 0x1F = x mod 32.
Proof. exact (land_low x 5 ltac:(lia)). Qed.

Lemma land_0F (x : Z) : Z.land x 0x0F = x mod 16.
Proof. exact (land_low x 4 ltac:(lia)). Qed.

Lemma land_07 (x : Z) : Z.land x 0x07 = x mod 8.
Proof. exact (land_low x 3 ltac:(lia)). Qed.

Lemma land_3F (x : Z) : Z.land x 0x3F = x mod 64.
Proof. exact (land_low x 6 ltac:(lia)). Qed.

Lemma value2 (b0 : Z) (c1 : ascii) :
  Z.lor (Z.shiftl (Z.land b0 0x1F) 6) (utf8.cont c1)
  = (b0 mod 32) * 64 + byte_val c1 mod 64.
Proof.
  rewrite cont_mod, land_1F, shiftl_mul by lia.
  apply (lor_add _ _ 6); [lia|]. apply Z.mod_pos_bound. lia.
Qed.

Lemma value3 (b0 : Z) (c1 c2 : ascii) :
  Z.lor (Z.shiftl (Z.land b0 0x0F) 12)
    (Z.lor (Z.shiftl (utf8.cont c1) 6) (utf8.cont c2))
  = (b0 mod 16) * 4096 + (byte_val c1 mod 64) * 64 + byte_val c2 mod 64.
Proof.
  rewrite !cont_mod, land_0F, !shiftl_mul by lia.
  pose proof (Z.mod_pos_bound (byte_val c1) 64 ltac:(lia)).
  pose proof (Z.mod_pos_bound (byte_val c2) 64 ltac:(lia)).
  rewrite (lor_add _ _ 6) by lia.
  rewrite (lor_add _ _ 12); change (2 ^ 12) with 4096;
    change (2 ^ 6) with 64 in *; change (2 ^ 4) with 16; lia.
Qed.

Lemma value4 (b0 : Z) (c1 c2 c3 : ascii) :
  Z.lor (Z.shiftl (Z.land b0 0x07) 18)
    (Z.lor (Z.shiftl (utf8.cont c1) 12)
       (Z.lor (Z.shiftl (utf8.cont c2) 6) (utf8.cont c3)))
  = (b0 mod 8) * 262144 + (byte_val c1 mod 64) * 4096
    + (byte_val c2 mod 64) * 64 + byte_val c3 mod 64.
Proof.
  rewrite !cont_mod, land_07, !shiftl_mul by lia.
  pose proof (Z.mod_pos_bound (byte_val c1) 64 ltac:(lia)).
  pose proof (Z.mod_pos_bound (byte_val c2) 64 ltac:(lia)).
  pose proof (Z.mod_pos_bound (byte_val c3) 64 ltac:(lia)).
  rewrite (lor_add _ _ 6) by lia.
  rewrite (lor_add _ _ 12) by (change (2 ^ 12) with 4096;
    change (2 ^ 6) with 64 in *; lia).
  rewrite (lor_add _ _ 18); change (2 ^ 18) with 262144;
    change (2 ^ 12) with 4096; change (2 ^ 6) with 64 in *;
    change (2 ^ 3) with 8; lia.
Qed.

Ltac range_facts :=
  repeat match goal with
         | H : utf8.in_range _ _ _ = true |- _ => apply in_range_spec in H
         | H : utf8.is_cont _ = true |- _ => apply is_cont_spec in H
         | H : (_ <? _) = true |- _ => apply Z.ltb_lt in H
         | H : (_ <? _) = false |- _ => apply Z.ltb_ge in H
         | H : (_ =? _) = true |- _ => apply Z.eqb_eq in H
         | H : (_ =? _) = false |- _ => apply Z.eqb_neq in H
         | H : _ && _ = true |- _ => apply andb_true_iff in H; destruct H
         end.

(** Whatever the bytes, the decoder delivers a Unicode scalar value. *)
Lemma DecodeRune_valid (c0 : ascii) (s1 : string) :
  valid_rune (fst (utf8.DecodeRune c0 s1)).
Proof.
  assert (Herr : valid_rune utf8.RuneError) by (right; vm_compute; split; discriminate).
  pose proof (byte_val_range c0) as Hb0.
  unfold utf8.DecodeRune. cbv zeta.
  destruct (byte_val c0 <? 0x80) eqn:E0; [range_facts; left; simpl; lia|].
  destruct (utf8.in_range 0xC2 0xDF (byte_val c0)) eqn:E2.
  { destruct s1 as [|c1 s2]; [exact Herr|].
    destruct (utf8.is_cont c1) eqn:E; [|exact Herr].
    cbn [fst]. rewrite value2. range_facts. left.
    Z.div_mod_to_equations. lia. }
  destruct (utf8.in_range 0xE0 0xEF (byte_val c0)) eqn:E3.
  { destruct s1 as [|c1 [|c2 s3]]; try exact Herr.
    destruct (utf8.in_range _ _ (byte_val c1) && utf8.is_cont c2) eqn:E;
      [|exact Herr].
    cbn [fst]. rewrite value3. range_facts.
    unfold utf8.accept_lo, utf8.accept_hi in *.
    destruct (Z.eqb_spec (byte_val c0) 0xE0), (Z.eqb_spec (byte_val c0) 0xF0),
      (Z.eqb_spec (byte_val c0) 0xED), (Z.eqb_spec (byte_val c0) 0xF4);
      unfold valid_rune; Z.div_mod_to_equations; lia. }
  destruct (utf8.in_range 0xF0 0xF4 (byte_val c0)) eqn:E4; [|exact Herr].
  destruct s1 as [|c1 [|c2 [|c3 s4]]]; try exact Herr.
  destruct (utf8.in_range _ _ (byte_val c1) && utf8.is_cont c2
            && utf8.is_cont c3) eqn:E; [|exact Herr].
  cbn [fst]. rewrite value4. range_facts.
  unfold utf8.accept_lo, utf8.accept_hi in *.
  destruct (Z.eqb_spec (byte_val c0) 0xE0), (Z.eqb_spec (byte_val c0) 0xF0),
    (Z.eqb_spec (byte_val c0) 0xED), (Z.eqb_spec (byte_val c0) 0xF4);
    unfold valid_rune; Z.div_mod_to_equations; lia.
Qed.

Lemma DecodeRune_2 (c0 c1 : ascii) (t : string) :
  0xC2 <= byte_val c0 <= 0xDF -> 0x80 <= byte_val c1 <= 0xBF ->
  utf8.DecodeRune c0 (String c1 t)
  = ((byte_val c0 mod 32) * 64 + byte_val c1 mod 64, t).
Proof.
  intros H0 H1. unfold utf8.DecodeRune. cbv zeta.
  rewrite (proj2 (Z.ltb_ge _ _)) by lia.
  rewrite (in_range_true 0xC2 0xDF) by lia.
  rewrite (proj2 (is_cont_spec c1)) by lia.
  now rewrite value2.
Qed.

Lemma DecodeRune_3 (c0 c1 c2 : ascii) (t : string) :
  0xE0 <= byte_val c0 <= 0xEF ->
  utf8.accept_lo (byte_val c0) <= byte_val c1 <= utf8.accept_hi (byte_val c0) ->
  0x80 <= byte_val c2 <= 0xBF ->
  utf8.DecodeRune c0 (String c1 (String c2 t))
  = ((byte_val c0 mod 16) * 4096 + (byte_val c1 mod 64) * 64
     + byte_val c2 mod 64, t).
Proof.
  intros H0 H1 H2. unfold utf8.DecodeRune. cbv zeta.
  rewrite (proj2 (Z.ltb_ge _ _)) by lia.
  rewrite (in_range_false 0xC2 0xDF) by lia.
  rewrite (in_range_true 0xE0 0xEF) by lia.
  rewrite (in_range_true _ _ (byte_val c1)) by lia.
  rewrite (proj2 (is_cont_spec c2)) by lia.
  cbn [andb]. now rewrite value3.
Qed.

Lemma DecodeRune_4 (c0 c1 c2 c3 : ascii) (t : string) :
  0xF0 <= byte_val c0 <= 0xF4 ->
  utf8.accept_lo (byte_val c0) <= byte_val c1 <= utf8.accept_hi (byte_val c0) ->
  0x80 <= byte_val c2 <= 0xBF ->
  0x80 <= byte_val c3 <= 0xBF ->
  utf8.DecodeRune c0 (String c1 (String c2 (String c3 t)))
  = ((byte_val c0 mod 8) * 262144 + (byte_val c1 mod 64) * 4096
     + (byte_val c2 mod 64) * 64 + byte_val c3 mod 64, t).
Proof.
  intros H0 H1 H2 H3. unfold utf8.DecodeRune. cbv zeta.
  rewrite (proj2 (Z.ltb_ge _ _)) by lia.
  rewrite (in_range_false 0xC2 0xDF) by lia.
  rewrite (in_range_false 0xE0 0xEF) by lia.
  rewrite (in_range_true 0xF0 0xF4) by lia.
  rewrite (in_range_true _ _ (byte_val c1)) by lia.
  rewrite (proj2 (is_cont_spec c2)) by lia.
  rewrite (proj2 (is_cont_spec c3)) by lia.
  cbn [andb]. now rewrite value4.
Qed.

Lemma lor_80 (x : Z) : 0 <= x < 64 -> Z.lor 0x80 x = 0x80 + x.
Proof. intros H. exact (lor_add 2 x 6 ltac:(lia) H). Qed.

Lemma lor_C0 (x : Z) : 0 <= x < 32 -> Z.lor 0xC0 x = 0xC0 + x.
Proof. intros H. exact (lor_add 6 x 5 ltac:(lia) H). Qed.

Lemma lor_E0 (x : Z) : 0 <= x < 16 -> Z.lor 0xE0 x = 0xE0 + x.
Proof. intros H. exact (lor_add 14 x 4 ltac:(lia) H). Qed.

Lemma lor_F0 (x : Z) : 0 <= x < 8 -> Z.lor 0xF0 x = 0xF0 + x.
Proof. intros H. exact (lor_add 30 x 3 ltac:(lia) H). Qed.

Lemma cont_byte_val (r shift : Z) :
  0 <= shift ->
  byte_val (utf8.cont_byte r shift) = 0x80 + (r / 2 ^ shift) mod 64.
Proof.
  intros H. unfold utf8.cont_byte.
  pose proof (Z.mod_pos_bound (r / 2 ^ shift) 64 ltac:(lia)).
  rewrite shiftr_div, land_3F, lor_80, byte_val_of by lia. reflexivity.
Qed.

Lemma shiftr_6 (r : Z) : Z.shiftr r 6 = r / 64.
Proof. exact (shiftr_div r 6 ltac:(lia)). Qed.

Lemma shiftr_12 (r : Z) : Z.shiftr r 12 = r / 4096.
Proof. exact (shiftr_div r 12 ltac:(lia)). Qed.

Lemma shiftr_18 (r : Z) : Z.shiftr r 18 = r / 262144.
Proof. exact (shiftr_div r 18 ltac:(lia)). Qed.

Lemma cont_byte_0 (r : Z) : byte_val (utf8.cont_byte r 0) = 0x80 + r mod 64.
Proof.
  rewrite cont_byte_val by lia. now rewrite Z.pow_0_r, Z.div_1_r.
Qed.

Lemma cont_byte_6 (r : Z) :
  byte_val (utf8.cont_byte r 6) = 0x80 + (r / 64) mod 64.
Proof. exact (cont_byte_val r 6 ltac:(lia)). Qed.

Lemma cont_byte_12 (r : Z) :
  byte_val (utf8.cont_byte r 12) = 0x80 + (r / 4096) mod 64.
Proof. exact (cont_byte_val r 12 ltac:(lia)). Qed.

(** Decoding undoes encoding, for every Unicode scalar value. *)
Lemma DecodeRune_EncodeRune (r : Z) (t : string) :
  valid_rune r ->
  exists c0 s1,
    utf8.EncodeRune r t = String c0 s1 /\ utf8.DecodeRune c0 s1 = (r, t).
Proof.
  intros Hv. unfold utf8.EncodeRune.
  destruct (utf8.in_range 0 0x7F r) eqn:E1.
  { range_facts. do 2 eexists. split; [reflexivity|].
    unfold utf8.DecodeRune. cbv zeta. rewrite byte_val_of by lia.
    now rewrite (proj2 (Z.ltb_lt _ _)) by lia. }
  destruct (utf8.in_range 0x80 0x7FF r) eqn:E2.
  { range_facts. do 2 eexists. split; [reflexivity|].
    assert (Hq : 2 <= r / 64 < 32) by (Z.div_mod_to_equations; lia).
    pose proof (Z.mod_pos_bound r 64 ltac:(lia)) as Hm.
    assert (Hb0 : byte_val (byte_of (Z.lor 0xC0 (Z.shiftr r 6)))
                  = 0xC0 + r / 64).
    { rewrite shiftr_6, lor_C0, byte_val_of by lia. reflexivity. }
    pose proof (cont_byte_0 r) as Hb1.
    rewrite DecodeRune_2 by (rewrite ?Hb0, ?Hb1; lia).
    rewrite Hb0, Hb1. f_equal. Z.div_mod_to_equations. lia. }
  destruct (utf8.in_range 0x800 0xFFFF r
            && negb (utf8.in_range 0xD800 0xDFFF r)) eqn:E3.
  { apply andb_true_iff in E3. destruct E3 as [E3 E3'].
    apply negb_true_iff in E3'. range_facts.
    do 2 eexists. split; [reflexivity|].
    assert (Hq : 0 <= r / 4096 < 16) by (Z.div_mod_to_equations; lia).
    assert (Hb0 : byte_val (byte_of (Z.lor 0xE0 (Z.shiftr r 12)))
                  = 0xE0 + r / 4096).
    { rewrite shiftr_12, lor_E0, byte_val_of by lia. reflexivity. }
    pose proof (cont_byte_6 r) as Hb1.
    pose proof (cont_byte_0 r) as Hb2.
    assert (Hns : r < 0xD800 \/ 0xDFFF < r).
    { destruct Hv as [Hv | Hv]; lia. }
    rewrite DecodeRune_3.
    - rewrite Hb0, Hb1, Hb2. f_equal. Z.div_mod_to_equations. lia.
    - rewrite Hb0. lia.
    - rewrite Hb0, Hb1. unfold utf8.accept_lo, utf8.accept_hi.
      destruct (Z.eqb_spec (0xE0 + r / 4096) 0xE0),
        (Z.eqb_spec (0xE0 + r / 4096) 0xF0),
        (Z.eqb_spec (0xE0 + r / 4096) 0xED),
        (Z.eqb_spec (0xE0 + r / 4096) 0xF4);
        Z.div_mod_to_equations; lia.
    - rewrite Hb2. Z.div_mod_to_equations. lia. }
  destruct (utf8.in_range 0x10000 0x10FFFF r) eqn:E4.
  { range_facts. do 2 eexists. split; [reflexivity|].
    assert (Hq : 0 <= r / 262144 <= 4) by (Z.div_mod_to_equations; lia).
    assert (Hb0 : byte_val (byte_of (Z.lor 0xF0 (Z.shiftr r 18)))
                  = 0xF0 + r / 262144).
    { rewrite shiftr_18, lor_F0, byte_val_of by lia. reflexivity. }
    pose proof (cont_byte_12 r) as Hb1.
    pose proof (cont_byte_6 r) as Hb2.
    pose proof (cont_byte_0 r) as Hb3.
    rewrite DecodeRune_4.
    - rewrite Hb0, Hb1, Hb2, Hb3. f_equal. Z.div_mod_to_equations. lia.
    - rewrite Hb0. lia.
    - rewrite Hb0, Hb1. unfold utf8.accept_lo, utf8.accept_hi.
      destruct (Z.eqb_spec (0xF0 + r / 262144) 0xE0),
        (Z.eqb_spec (0xF0 + r / 262144) 0xF0),
        (Z.eqb_spec (0xF0 + r / 262144) 0xED),
        (Z.eqb_spec (0xF0 + r / 262144) 0xF4);
        Z.div_mod_to_equations; lia.
    - rewrite Hb2. Z.div_mod_to_equations. lia.
    - rewrite Hb3. Z.div_mod_to_equations. lia. }
  exfalso.
  apply not_true_iff_false in E1, E2, E4. rewrite in_range_spec in E1, E2, E4.
  apply andb_false_iff in E3. rewrite negb_false_iff in E3.
  destruct E3 as [E3 | E3].
  - apply not_true_iff_false in E3. rewrite in_range_spec in E3.
    unfold valid_rune in Hv. lia.
  - apply in_range_spec in E3. unfold valid_rune in Hv. lia.
Qed.

(** ** What the scanner reads, whatever the input *)

Lemma accept_all_spec (ok : Z -> bool) (inp : list Z) :
  forall buf,
    fmt.accept_all ok buf inp
    = fmt.ScanOk (buf ++ encode_all (run_of ok inp)) (after_run ok inp).
Proof.
  induction inp as [|r inp IH]; intros buf; simpl.
  - now rewrite string_app_empty.
  - destruct (ok r); simpl.
    + rewrite IH, string_app_assoc. now rewrite <- EncodeRune_tail.
    + now rewrite string_app_empty.
Qed.

Lemma run_of_ok (ok : Z -> bool) (inp : list Z) :
  Forall (fun r => ok r = true) (run_of ok inp).
Proof.
  induction inp as [|r inp IH]; simpl; [constructor|].
  destruct (ok r) eqn:E; constructor; assumption.
Qed.

Lemma run_of_keeps (P : Z -> Prop) (ok : Z -> bool) (inp : list Z) :
  Forall P inp -> Forall P (run_of ok inp) /\ Forall P (after_run ok inp).
Proof.
  induction 1 as [|r inp Hr Hinp [IH1 IH2]]; simpl; [split; constructor|].
  destruct (ok r); split; auto.
Qed.

(** The runes of a string are Unicode scalar values. *)
Lemma runes_valid (fuel : nat) :
  forall s, Forall valid_rune (fmt.runes_fuel fuel s).
Proof.
  induction fuel as [|fuel IH]; intros s; simpl; [constructor|].
  destruct s as [|c0 s1]; [constructor|].
  pose proof (DecodeRune_valid c0 s1) as Hv.
  destruct (utf8.DecodeRune c0 s1) as [r rest]. constructor; [exact Hv|apply IH].
Qed.

(** Runes that are not white space are written out as a word. *)
Lemma encode_all_word (rs : list Z) :
  forall fuel,
    Forall valid_rune rs ->
    Forall (fun r => fmt.notSpace r = true) rs ->
    (List.length rs <= fuel)%nat ->
    word_fuel fuel (encode_all rs) = true.
Proof.
  induction rs as [|r rs IH]; intros fuel Hv Hn Hf; simpl.
  - now destruct fuel.
  - inversion Hv as [|? ? Hr Hrs]; subst. inversion Hn as [|? ? Hnr Hnrs]; subst.
    destruct (DecodeRune_EncodeRune r (encode_all rs) Hr) as (c0 & s1 & He & Hd).
    rewrite He. destruct fuel as [|fuel]; [simpl in Hf; lia|].
    cbn [word_fuel]. rewrite Hd, Hnr, He, String.eqb_refl.
    cbn [andb]. apply IH; auto. simpl in Hf. lia.
Qed.

Lemma EncodeRune_length (r : Z) (t : string) :
  (String.length t < String.length (utf8.EncodeRune r t))%nat.
Proof.
  unfold utf8.EncodeRune.
  repeat match goal with
         | |- context [if ?b then _ else _] => destruct b
         end; simpl; lia.
Qed.

Lemma encode_all_length (rs : list Z) :
  (List.length rs <= String.length (encode_all rs))%nat.
Proof.
  induction rs as [|r rs IH]; simpl; [lia|].
  pose proof (EncodeRune_length r (encode_all rs)). lia.
Qed.

Lemma encode_all_nonempty (r : Z) (rs : list Z) : encode_all (r :: rs) <> "".
Proof.
  simpl. pose proof (EncodeRune_length r (encode_all rs)) as H.
  destruct (utf8.EncodeRune r (encode_all rs)); [simpl in H; lia | discriminate].
Qed.

Lemma SkipSpace_keeps (P : Z -> Prop) (inp : list Z) :
  forall rest,
    Forall P inp -> fmt.SkipSpace inp = fmt.ScanOk tt rest ->
    Forall P rest
    /\ match rest with [] => True | r :: _ => fmt.isSpace r = false end.
Proof.
  induction inp as [|r inp IH]; intros rest HP; simpl.
  - intros [= <-]. split; [constructor | exact I].
  - inversion HP as [|? ? Hr Hinp]; subst.
    destruct ((r =? 13) && match inp with 10 :: _ => true | _ => false end);
      [now apply IH|].
    destruct (r =? 10); [discriminate|].
    destruct (fmt.isSpace r) eqn:E; [now apply IH|].
    intros [= <-]. split; [exact HP | exact E].
Qed.

Lemma skip_blanks_keeps (P : Z -> Prop) (inp : list Z) :
  Forall P inp -> Forall P (fmt.skip_blanks inp).
Proof.
  induction 1 as [|r inp Hr Hinp IH]; simpl; [constructor|].
  destruct (fmt.isSpace r && negb (r =? 10)); [exact IH | now constructor].
Qed.

Lemma ParseUint_loop_range (s : string) :
  forall n u,
    0 <= n <= maxUint64 ->
    strconv.ParseUint_loop s n = inr u -> 0 <= u <= maxUint64.
Proof.
  induction s as [|c s IH]; cbn [strconv.ParseUint_loop]; intros n u Hn.
  - now intros [= <-].
  - destruct (strconv.is_digit c); [|discriminate].
    destruct (maxUint64 / 10 + 1 <=? n); [discriminate|]. cbv zeta.
    destruct (_ || _) eqn:E; [discriminate|].
    apply orb_false_iff in E. destruct E as [_ E]. apply Z.ltb_ge in E.
    apply IH. split; [|exact E].
    apply Z.mod_pos_bound. reflexivity.
Qed.

(** What [ParseInt] accepts fits an [int64]. *)
Lemma ParseInt_range (s : string) (p : Z) :
  strconv.ParseInt s = inr p -> minInt64 <= p <= maxInt64.
Proof.
  unfold strconv.ParseInt. destruct s as [|c0 s']; [discriminate|]. cbv zeta.
  destruct (strconv.ParseUint _) as [e | un] eqn:Hu; [discriminate|].
  assert (Hun : 0 <= un <= maxUint64).
  { match type of Hu with
    | strconv.ParseUint ?d = _ =>
        unfold strconv.ParseUint in Hu; destruct d; [discriminate|]
    end.
    apply ParseUint_loop_range in Hu; [exact Hu|].
    unfold maxUint64. lia. }
  unfold minInt64, maxInt64.
  destruct (Ascii.eqb c0 "-"); cbn [negb andb].
  - destruct (2 ^ 63 <? un) eqn:E; [discriminate|].
    apply Z.ltb_ge in E. intros [= <-]. lia.
  - destruct (2 ^ 63 <=? un) eqn:E; [discriminate|].
    apply Z.leb_gt in E. intros [= <-]. lia.
Qed.

Lemma scanInt_keeps (P : Z -> Prop) (inp rest : list Z) (i : Z) :
  Forall P inp -> fmt.scanInt inp = fmt.ScanOk i rest ->
  Forall P rest /\ minInt64 <= i <= maxInt64.
Proof.
  intros HP. unfold fmt.scanInt, fmt.bind.
  destruct (fmt.SkipSpace inp) as [[] inp1|] eqn:H1; [|discriminate].
  apply (SkipSpace_keeps P) in H1; [|exact HP]. destruct H1 as [HP1 _].
  unfold fmt.notEOF at 1. destruct inp1 as [|r1 inp1']; [discriminate|].
  assert (HP2 : forall buf,
             match fmt.accept fmt.sign buf (r1 :: inp1') with
             | fmt.ScanOk _ inp2 => Forall P inp2
             | fmt.ScanErr _ => True
             end).
  { intros buf. unfold fmt.accept. destruct (fmt.sign r1); [|exact HP1].
    now inversion HP1. }
  specialize (HP2 "").
  destruct (fmt.accept fmt.sign "" (r1 :: inp1')) as [ab inp2|]; [|discriminate].
  unfold fmt.scanNumber, fmt.bind, fmt.notEOF.
  destruct inp2 as [|r2 inp2']; [discriminate|].
  unfold fmt.accept. destruct (fmt.digits r2); cbn [fst snd]; [|discriminate].
  rewrite accept_all_spec.
  destruct (strconv.ParseInt _) as [[|] | p] eqn:Hp; try discriminate.
  intros [= <- <-]. split; [|now apply ParseInt_range in Hp].
  inversion HP2; subst. now apply run_of_keeps.
Qed.

Lemma advance_space_keeps (P : Z -> Prop) (inp rest : list Z) :
  Forall P inp -> fmt.advance_space inp = fmt.ScanOk tt rest -> Forall P rest.
Proof.
  intros HP. unfold fmt.advance_space. destruct inp as [|r inp'].
  - now intros [= <-].
  - destruct (negb (fmt.isSpace r)); [discriminate|].
    destruct (r =? 10); [discriminate|]. intros [= <-].
    apply skip_blanks_keeps. now inversion HP.
Qed.

(** What [%s] reads out of Unicode scalar values is a word. *)
Lemma convertString_is_word (inp rest : list Z) (e : string) :
  Forall valid_rune inp -> fmt.convertString inp = fmt.ScanOk e rest ->
  is_word e.
Proof.
  intros HP. unfold fmt.convertString, fmt.bind.
  destruct (fmt.SkipSpace inp) as [[] inp1|] eqn:H1; [|discriminate].
  apply (SkipSpace_keeps valid_rune) in H1; [|exact HP].
  destruct H1 as [HP1 Hfirst].
  unfold fmt.notEOF. destruct inp1 as [|r inp1']; [discriminate|].
  rewrite (SkipSpace_at_word r inp1' Hfirst), accept_all_spec.
  intros [= <- <-]. change ("" ++ ?x) with x.
  cbn [run_of]. unfold fmt.notSpace at 1 2. rewrite Hfirst. cbn [negb].
  split; [apply encode_all_nonempty|].
  apply encode_all_word.
  - inversion HP1; subst. constructor; [assumption|]. now apply run_of_keeps.
  - constructor; [unfold fmt.notSpace; now rewrite Hfirst|]. apply run_of_ok.
  - apply encode_all_length.
Qed.

(** What [Sscanf] leaves in its operands, starting from zero values: an
    [int64], and the empty string or a word. *)
Lemma Sscanf_image (v : string) :
  let '(_, _, (p, e)) := fmt.Sscanf_d_s v 0 "" in
  minInt64 <= p <= maxInt64 /\ (e = "" \/ is_word e).
Proof.
  unfold fmt.Sscanf_d_s.
  assert (H0 : minInt64 <= 0 <= maxInt64) by (vm_compute; split; discriminate).
  pose proof (runes_valid (String.length v) v) as HP. fold (fmt.runes v) in HP.
  unfold fmt.bind at 1.
  destruct (fmt.SkipSpace (fmt.runes v)) as [[] inp0|] eqn:H1; [|auto].
  apply (SkipSpace_keeps valid_rune) in H1; [|exact HP]. destruct H1 as [HP0 _].
  destruct (fmt.scanInt inp0) as [i inp1|] eqn:H2; [|auto].
  apply (scanInt_keeps valid_rune) in H2; [|exact HP0].
  destruct H2 as [HP1 Hi].
  unfold fmt.bind.
  destruct (fmt.advance_space inp1) as [[] inp2|] eqn:H3; [|auto].
  apply (advance_space_keeps valid_rune) in H3; [|exact HP1].
  destruct (fmt.SkipSpace inp2) as [[] inp3|] eqn:H4; [|auto].
  apply (SkipSpace_keeps valid_rune) in H4; [|exact H3]. destruct H4 as [HP3 _].
  destruct (fmt.convertString inp3) as [w inp4|] eqn:H5; [|auto].
  split; [exact Hi|]. right.
  exact (convertString_is_word inp3 inp4 w HP3 H5).
Qed.

(** An integer with a space behind it is read, and the word is missed. *)
Lemma Sscanf_Itoa_space (p : Z) (a0 : Z) (a1 : string) :
  minInt64 <= p <= maxInt64 ->
  snd (fmt.Sscanf_d_s (strconv.Itoa p ++ " ") a0 a1) = (p, a1).
Proof.
  intros Hp. unfold fmt.Sscanf_d_s.
  rewrite (runes_app_ascii (strconv.Itoa p)) by apply Itoa_ascii.
  change (fmt.runes " ") with [32].
  destruct (scanInt_Itoa p [32] Hp) as [Hint Hskip]; [reflexivity|].
  unfold fmt.bind at 1. rewrite Hskip, Hint. reflexivity.
Qed.

(** ** Input that goes on after the word *)

Lemma DecodeRune_rest_length (c0 : ascii) (s1 : string) :
  (String.length (snd (utf8.DecodeRune c0 s1)) <= String.length s1)%nat.
Proof.
  unfold utf8.DecodeRune. cbv zeta.
  destruct (_ <? _); [simpl; lia|].
  destruct (utf8.in_range 0xC2 0xDF _).
  { destruct s1 as [|c1 s2]; [simpl; lia|].
    destruct (utf8.is_cont c1); simpl; lia. }
  destruct (utf8.in_range 0xE0 0xEF _).
  { destruct s1 as [|c1 [|c2 s3]]; try (simpl; lia).
    destruct (_ && _); simpl; lia. }
  destruct (utf8.in_range 0xF0 0xF4 _); [|simpl; lia].
  destruct s1 as [|c1 [|c2 [|c3 s4]]]; try (simpl; lia).
  destruct (_ && _ && _); simpl; lia.
Qed.

Lemma runes_fuel_any (f1 : nat) :
  forall f2 s,
    (String.length s <= f1)%nat -> (String.length s <= f2)%nat ->
    fmt.runes_fuel f1 s = fmt.runes_fuel f2 s.
Proof.
  induction f1 as [|f1 IH]; intros f2 s H1 H2.
  - destruct s; [now destruct f2 | simpl in H1; lia].
  - destruct s as [|c0 s1]; [now destruct f2|].
    destruct f2 as [|f2]; [simpl in H2; lia|].
    simpl in *. pose proof (DecodeRune_rest_length c0 s1) as Hl.
    destruct (utf8.DecodeRune c0 s1) as [r rest]. simpl in Hl.
    f_equal. apply IH; lia.
Qed.

Lemma runes_fuel_enough (fuel : nat) (s : string) :
  (String.length s <= fuel)%nat -> fmt.runes_fuel fuel s = fmt.runes s.
Proof. intros H. apply runes_fuel_any; [exact H | lia]. Qed.

(** What follows a well-formed rune does not change how it is decoded. *)
Lemma DecodeRune_app (c0 : ascii) (s1 rest t : string) (r : Z) :
  utf8.DecodeRune c0 s1 = (r, rest) ->
  utf8.EncodeRune r rest = String c0 s1 ->
  utf8.DecodeRune c0 (s1 ++ t) = (r, rest ++ t).
Proof.
  intros Hd He.
  assert (Hv : valid_rune r).
  { pose proof (DecodeRune_valid c0 s1) as H. now rewrite Hd in H. }
  destruct (DecodeRune_EncodeRune r (rest ++ t) Hv) as (c0' & s1' & He' & Hd').
  rewrite EncodeRune_tail, <- string_app_assoc, <- EncodeRune_tail, He in He'.
  simpl in He'. injection He' as <- <-. exact Hd'.
Qed.

Lemma runes_app_word (fuel : nat) :
  forall e t,
    word_fuel fuel e = true ->
    fmt.runes (e ++ t) = (fmt.runes_fuel fuel e ++ fmt.runes t)%list.
Proof.
  induction fuel as [|fuel IH]; intros e t H.
  - destruct e; [reflexivity | discriminate H].
  - destruct e as [|c0 s1]; [reflexivity|].
    cbn [word_fuel fmt.runes_fuel] in *.
    destruct (utf8.DecodeRune c0 s1) as [r rest] eqn:Hd.
    apply andb_true_iff in H. destruct H as [H Hrest].
    apply andb_true_iff in H. destruct H as [Hr Henc].
    apply String.eqb_eq in Henc.
    unfold fmt.runes at 1. simpl.
    rewrite (DecodeRune_app c0 s1 rest t r Hd Henc). f_equal.
    rewrite runes_fuel_enough; [now apply IH|].
    pose proof (DecodeRune_rest_length c0 s1) as Hl. rewrite Hd in Hl.
    simpl in Hl. rewrite !string_length_app. lia.
Qed.

Lemma accept_all_word_then (fuel : nat) :
  forall s buf rest,
    word_fuel fuel s = true ->
    stops fmt.notSpace rest ->
    fmt.accept_all fmt.notSpace buf (fmt.runes_fuel fuel s ++ rest)
    = fmt.ScanOk (buf ++ s) rest.
Proof.
  assert (Hnil : forall buf rest,
             stops fmt.notSpace rest ->
             fmt.accept_all fmt.notSpace buf rest = fmt.ScanOk buf rest).
  { intros buf [|r rest] H; [reflexivity|]. simpl in *. now rewrite H. }
  induction fuel as [|fuel IH]; intros s buf rest H Hrest.
  - destruct s; [|discriminate H]. simpl. rewrite string_app_empty. auto.
  - destruct s as [|c0 s1]; [simpl; rewrite string_app_empty; auto|].
    cbn [word_fuel fmt.runes_fuel] in *.
    destruct (utf8.DecodeRune c0 s1) as [r rest0].
    apply andb_true_iff in H. destruct H as [H Hrest0].
    apply andb_true_iff in H. destruct H as [Hr Henc].
    apply String.eqb_eq in Henc.
    cbn [fmt.accept_all app]. rewrite Hr, (IH rest0 _ rest Hrest0 Hrest).
    now rewrite string_app_assoc, <- EncodeRune_tail, Henc.
Qed.

Lemma word_first (e : string) :
  is_word e ->
  exists r inp,
    fmt.runes_fuel (String.length e) e = r :: inp /\ fmt.isSpace r = false.
Proof.
  intros [Hne Hw]. destruct e as [|c e]; [congruence|].
  cbn [String.length word_fuel fmt.runes_fuel] in *.
  destruct (utf8.DecodeRune c e) as [r rest].
  apply andb_true_iff in Hw. destruct Hw as [Hw _].
  apply andb_true_iff in Hw. destruct Hw as [Hr _].
  apply negb_true_iff in Hr. eauto.
Qed.

(** Whatever comes after the word is not read. *)
Lemma Sscanf_Itoa_word_more (p : Z) (e more : string) (a0 : Z) (a1 : string) :
  minInt64 <= p <= maxInt64 ->
  is_word e ->
  fmt.Sscanf_d_s (strconv.Itoa p ++ " " ++ e ++ " " ++ more) a0 a1
  = (2%nat, None, (p, e)).
Proof.
  intros Hp He. unfold fmt.Sscanf_d_s.
  rewrite (runes_app_ascii (strconv.Itoa p)) by apply Itoa_ascii.
  rewrite (runes_app_ascii " ") by reflexivity.
  rewrite (runes_app_word (String.length e) e) by apply He.
  rewrite (runes_app_ascii " " more) by reflexivity.
  change (map byte_val (list_ascii_of_string " ")) with [32].
  cbn [app].
  destruct (scanInt_Itoa p
              (32 :: fmt.runes_fuel (String.length e) e ++ 32 :: fmt.runes more)
              Hp) as [Hint Hskip]; [reflexivity|].
  unfold fmt.bind at 1. rewrite Hskip, Hint.
  pose proof (accept_all_word_then (String.length e) e ""
                (32 :: fmt.runes more) (proj2 He) eq_refl) as Hall.
  destruct (word_first e He) as (r & inp & Er & Hr). rewrite Er in *.
  cbn [app] in *.
  unfold fmt.bind, fmt.advance_space, fmt.convertString, fmt.bind.
  change (fmt.isSpace 32) with true. change (32 =? 10) with false.
  cbn [negb fmt.skip_blanks]. rewrite Hr. cbn [andb].
  rewrite !(SkipSpace_at_word r _ Hr). cbn [fmt.notEOF].
  rewrite !(SkipSpace_at_word r _ Hr). rewrite Hall. reflexivity.
Qed.

(** ** MX values through [buildRData] and [GetRecord] *)

Lemma GetRecord_fill_MX (rec : RecordResponse.t) (record : DynRecord) :
  let d := RecordResponse.Data rec in
  RecordResponse.RecordType d = "MX" ->
  fst (GetRecord_fill rec record) = None
  /\ Value (snd (GetRecord_fill rec record))
     = strconv.Itoa (Preference (RecordResponse.RData d)) ++ " "
       ++ Exchange (RecordResponse.RData d).
Proof.
  intros d H. unfold GetRecord_fill. fold d. rewrite H. simpl. auto.
Qed.




